(** * Release repository: filter registry and repository facade

    A shallow embedding of [src/infra/repositories/release/index.js]:
    the table [filterMappings] of filter functions, the where-clause
    fragments they build, the meaning the persistence backend gives to
    such fragments, and the facade operations written on top of the
    backend ([createImages], [getAllImages], [countLikeReleases],
    [setHiddenDashboard], ...).

    Strings are [string]s whose characters stand for the code units
    0..255; a number is [NaN], an infinity, or the rational a binary64
    holds exactly; instants are milliseconds since the epoch, in [Z]. *)

From Stdlib Require Import List Bool Arith ZArith QArith Lia.
From Stdlib Require Import Ascii String.
Import ListNotations.

Local Open Scope string_scope.
Local Open Scope Z_scope.

Set Warnings "-register-all".

(** ** JavaScript values and builtins *)

Module JS.

(** A JavaScript number. *)
Inductive number : Type :=
| NaN
| Infinity (negative : bool)
| Num (q : Q).

(** A raw filter value, as the parameter object holds it: a string, or
    an array of strings. *)
Inductive value : Type :=
| Str (s : string)
| Arr (l : list string).

Inductive error : Type :=
| TypeError
| EntityNotFound.

(** The outcome of a call: a returned value or a thrown error. *)
Inductive result (A : Type) : Type :=
| Ok (a : A)
| Throw (e : error).
Arguments Ok {A} a.
Arguments Throw {A} e.

(** [ToString]: an array is its elements joined by commas. *)
Definition ToString (v : value) : string :=
  match v with
  | Str s => s
  | Arr l => String.concat "," l
  end.

(** White space and line terminators among the code units below 256:
    TAB, LF, VT, FF, CR, SP and NBSP.  This is both the class [\s] of
    regular expressions and [StrWhiteSpaceChar]. *)
Definition is_space (c : ascii) : bool :=
  let n := nat_of_ascii c in
  ((9 <=? n) && (n <=? 13) || (n =? 32) || (n =? 160))%nat.

Definition starts_with_space (s : string) : bool :=
  match s with
  | String c _ => is_space c
  | EmptyString => false
  end.

(** [s.split(/\s+/g)]: the pieces of [s] between the maximal runs of
    white space.  A run at the very start leaves an empty first piece
    and a run at the very end an empty last piece; the empty string
    splits into one empty piece. *)
Fixpoint split_spaces (s : string) : list string :=
  match s with
  | EmptyString => [EmptyString]
  | String c s' =>
      if is_space c then
        if starts_with_space s' then split_spaces s'
        else EmptyString :: split_spaces s'
      else
        match split_spaces s' with
        | w :: ws => String c w :: ws
        | [] => [String c EmptyString]
        end
  end.

(** *** Number parsing *)

Fixpoint trim_start (s : string) : string :=
  match s with
  | String c s' => if is_space c then trim_start s' else s
  | EmptyString => s
  end.

(** The value of a decimal digit, of a hexadecimal digit. *)
Definition digit (c : ascii) : option Z :=
  let n := Z.of_nat (nat_of_ascii c) in
  if (48 <=? n) && (n <=? 57) then Some (n - 48) else None.

Definition hex_digit (c : ascii) : option Z :=
  let n := Z.of_nat (nat_of_ascii c) in
  if (48 <=? n) && (n <=? 57) then Some (n - 48)
  else if (65 <=? n) && (n <=? 70) then Some (n - 55)
  else if (97 <=? n) && (n <=? 102) then Some (n - 87)
  else None.

(** The longest run of digits at the start of [s], most significant
    first, and what follows it. *)
Fixpoint span_digits (dig : ascii -> option Z) (s : string)
  : list Z * string :=
  match s with
  | String c s' =>
      match dig c with
      | Some d => let (ds, rest) := span_digits dig s' in (d :: ds, rest)
      | None => ([], s)
      end
  | EmptyString => ([], s)
  end.

Definition digits_value (radix : Z) (ds : list Z) : Z :=
  fold_left (fun acc d => acc * radix + d) ds 0.

(** An optional sign: whether it is a minus, and what follows it. *)
Definition read_sign (s : string) : bool * string :=
  match s with
  | String c s' =>
      if Ascii.eqb c "-" then (true, s')
      else if Ascii.eqb c "+" then (false, s')
      else (false, s)
  | EmptyString => (false, s)
  end.

Definition signed (negative : bool) (z : Z) : Z :=
  if negative then - z else z.

(** The exponent part [e], [e+] or [e-] followed by at least one
    digit; 0 when there is none. *)
Definition read_exponent (s : string) : Z :=
  match s with
  | String c s' =>
      if (Ascii.eqb c "e" || Ascii.eqb c "E")%bool then
        let (neg, s'') := read_sign s' in
        match span_digits digit s'' with
        | ([], _) => 0
        | (ds, _) => signed neg (digits_value 10 ds)
        end
      else 0
  | EmptyString => 0
  end.

(** [m * 10 ^ e], exactly. *)
Definition scale10 (m e : Z) : Q :=
  if 0 <=? e then inject_Z (m * 10 ^ e)
  else Qmake m (Z.to_pos (10 ^ (- e))).

(** The binary64 value nearest to the magnitude [q >= 0], ties to the
    even significand, with the sign given: the rational the double
    holds exactly, in lowest terms, or an infinity past the largest
    double.  The significand has 53 bits, fewer below [2 ^ -1022],
    where the spacing stays [2 ^ -1074]; a zero has no sign here. *)
Definition binary64 (negative : bool) (q : Q) : number :=
  let n := Qnum q in
  let d := Zpos (Qden q) in
  if n <=? 0 then Num 0
  else
    let e0 := Z.log2 n - Z.log2 d in
    let reaches := if 0 <=? e0 then d * 2 ^ e0 <=? n else d <=? n * 2 ^ (- e0) in
    let e := if reaches then e0 else e0 - 1 in
    let k := Z.max (e - 52) (-1074) in
    let nn := if 0 <=? k then n else n * 2 ^ (- k) in
    let dd := if 0 <=? k then d * 2 ^ k else d in
    let m0 := nn / dd in
    let r := nn mod dd in
    let m := if (dd <? 2 * r) || ((dd =? 2 * r) && Z.odd m0)
             then m0 + 1 else m0 in
    if 0 <=? k then
      if 2 ^ 1024 <=? m * 2 ^ k then Infinity negative
      else Num (inject_Z (signed negative (m * 2 ^ k)))
    else Num (Qred (Qmake (signed negative m) (Z.to_pos (2 ^ (- k))))).

(** [parseFloat] on a string: leading white space is skipped, then the
    longest prefix that is a decimal literal is read and rounded to
    binary64, and [NaN] is returned when there is none.  Nothing is
    ever thrown. *)
Definition parseFloat_string (s : string) : number :=
  let (neg, body) := read_sign (trim_start s) in
  if String.prefix "Infinity" body then Infinity neg
  else
    let (ip, r1) := span_digits digit body in
    let (fp, r2) :=
      match r1 with
      | String c r => if Ascii.eqb c "." then span_digits digit r else ([], r1)
      | EmptyString => ([], r1)
      end in
    match (ip ++ fp)%list with
    | [] => NaN
    | ds =>
        binary64 neg
          (scale10 (digits_value 10 ds)
                   (read_exponent r2 - Z.of_nat (List.length fp)))
    end.

Definition parseFloat (v : value) : number :=
  parseFloat_string (ToString v).

(** [parseInt] without a radix: leading white space and a sign, then
    hexadecimal digits after [0x] or [0X] and decimal digits
    otherwise, rounded to binary64; [NaN] when no digit is there. *)
Definition parseInt_string (s : string) : number :=
  let (neg, body) := read_sign (trim_start s) in
  let (radix, body') :=
    match body with
    | String c (String x r) =>
        if Ascii.eqb c "0" && (Ascii.eqb x "x" || Ascii.eqb x "X")
        then (16, r) else (10, body)
    | _ => (10, body)
    end in
  match span_digits (if radix =? 16 then hex_digit else digit) body' with
  | ([], _) => NaN
  | (ds, _) => binary64 neg (inject_Z (digits_value radix ds))
  end.

Definition parseInt (v : value) : number :=
  parseInt_string (ToString v).

(** [x === 0] on numbers. *)
Definition is_zero (x : number) : bool :=
  match x with
  | Num q => Qeq_bool q 0
  | _ => false
  end.

End JS.

Import JS.


(** ** The persistence backend: rows, where clauses and their meaning *)

Module Sql.

(** A stored value. *)
Inductive cell : Type :=
| Null
| Number (q : Q)
| Text (s : string)
| Date (t : Z)
| Boolean (b : bool).

(** A row of any table: its columns by name; [None] for a name that
    is not a column of the table. *)
Definition row : Type := string -> option cell.

(** A JavaScript value placed in a where clause.  [ODate None] is an
    invalid date (an invalid [moment] or [Date]). *)
Inductive operand : Type :=
| ONull
| ONum (n : number)
| OStr (s : string)
| ODate (t : option Z)
| OBool (b : bool).

(** The comparison operators of [Sequelize.Op] the repository uses. *)
Inductive Op : Type := lt | lte | gte | ne | like.

(** What stands under an attribute key:
    - [Val v] for a bare value, [attr: v];
    - [Cmp o v] for [attr: { [Op.o]: v }];
    - [And cs] for [{ [Op.and]: [...] }], and for an object with
      several operator keys, which the backend conjoins;
    - [Or cs] for [{ [Op.or]: [...] }]. *)
Inductive cond : Type :=
| Val (v : operand)
| Cmp (o : Op) (v : operand)
| And (cs : list cond)
| Or (cs : list cond).

(** A where object: [{ attr: c }], or [{ [Op.or]: { a1: c1, ... } }]. *)
Inductive clause : Type :=
| Attr (attr : string) (c : cond)
| OrAttrs (alts : list (string * cond)).

Section Semantics.

(** The collation of the backend: whether a character of a pattern
    or of a literal and a character of a stored string count as
    the same. *)
Variable collate : ascii -> ascii -> bool.

(** String equality under the collation. *)
Fixpoint text_eq (a b : string) : bool :=
  match a, b with
  | EmptyString, EmptyString => true
  | String c a', String d b' => collate c d && text_eq a' b'
  | _, _ => false
  end.

(** [s LIKE p]: [%] stands for any run of characters and [_] for
    any one character; no escape character is modelled. *)
Fixpoint like_match (p : string) : string -> bool :=
  match p with
  | EmptyString =>
      fun s => match s with EmptyString => true | _ => false end
  | String c p' =>
      if Ascii.eqb c "%" then
        fix any_run (s : string) : bool :=
          like_match p' s ||
          match s with
          | String _ s' => any_run s'
          | EmptyString => false
          end
      else if Ascii.eqb c "_" then
        fun s =>
          match s with
          | String _ s' => like_match p' s'
          | EmptyString => false
          end
      else
        fun s =>
          match s with
          | String d s' => collate c d && like_match p' s'
          | EmptyString => false
          end
  end.

(** The finite value a number literal denotes; there is none for
    [NaN] and the infinities. *)
Definition finite (n : number) : option Q :=
  match n with Num q => Some q | _ => None end.

(** The integer a string denotes for a number column: digits, after
    a minus sign or none, and nothing else, for an integer below
    [2 ^ 53] in magnitude (which every backend compares exactly). *)
Definition integer_literal (s : string) : option Z :=
  let (negative, body) :=
    match s with
    | String c s' => if Ascii.eqb c "-" then (true, s') else (false, s)
    | EmptyString => (false, s)
    end in
  match span_digits digit body with
  | (d :: ds, EmptyString) =>
      let z := digits_value 10 (d :: ds) in
      if z <? 2 ^ 53 then Some (signed negative z) else None
  | _ => None
  end.

(** [x = v].  A string against a number column is compared as the
    integer it denotes.  What the backend makes of a string that
    denotes none, of the other comparisons across types, and of a
    number SQL has no literal for, is not modelled: these hold of no
    row here. *)
Definition equal (x : cell) (v : operand) : bool :=
  match x, v with
  | Number p, ONum n =>
      match finite n with Some q => Qeq_bool p q | None => false end
  | Number p, OStr t =>
      match integer_literal t with
      | Some z => Qeq_bool p (inject_Z z)
      | None => false
      end
  | Text s, OStr t => text_eq t s
  | Date d, ODate (Some t) => d =? t
  | Boolean a, OBool b => Bool.eqb a b
  | _, _ => false
  end.

(** [x < v] and [x <= v], on numbers and on dates. *)
Definition less (strict : bool) (x : cell) (v : operand) : bool :=
  match x, v with
  | Number p, ONum n =>
      match finite n with
      | Some q => if strict then negb (Qle_bool q p) else Qle_bool p q
      | None => false
      end
  | Date d, ODate (Some t) => if strict then d <? t else d <=? t
  | _, _ => false
  end.

Definition greater_eq (x : cell) (v : operand) : bool :=
  match x, v with
  | Number p, ONum n =>
      match finite n with Some q => Qle_bool q p | None => false end
  | Date d, ODate (Some t) => t <=? d
  | _, _ => false
  end.

Definition is_null (x : cell) : bool :=
  match x with Null => true | _ => false end.

(** Whether the stored value [x] satisfies [{ [Op.o]: v }].  A
    comparison with a [Null] cell is unknown, so the row is not
    selected; [v = null] turns [ne] into [IS NOT NULL]. *)
Definition compare (o : Op) (x : cell) (v : operand) : bool :=
  match o, v with
  | ne, ONull => negb (is_null x)
  | ne, _ => negb (is_null x) && negb (equal x v)
  | lt, _ => less true x v
  | lte, _ => less false x v
  | gte, _ => greater_eq x v
  | like, OStr p =>
      match x with Text s => like_match p s | _ => false end
  | like, _ => false
  end.

(** Whether [x] satisfies a condition; a bare [null] is [IS NULL].
    An empty [Op.or], like an empty [Op.and], puts no condition in the
    statement: every value satisfies it. *)
Fixpoint holds (c : cond) (x : cell) : bool :=
  match c with
  | Val ONull => is_null x
  | Val v => equal x v
  | Cmp o v => compare o x v
  | And cs => forallb (fun c' => holds c' x) cs
  | Or [] => true
  | Or cs => existsb (fun c' => holds c' x) cs
  end.

Definition holds_attr (r : row) (ac : string * cond) : bool :=
  match r (fst ac) with
  | Some x => holds (snd ac) x
  | None => false
  end.

(** Whether the backend selects row [r] under the where object. *)
Definition selects (w : clause) (r : row) : bool :=
  match w with
  | Attr a c => holds_attr r (a, c)
  | OrAttrs alts => existsb (holds_attr r) alts
  end.

End Semantics.

(** Two collations: exact comparison, and comparison that ignores the
    case of the letters a-z. *)
Definition binary : ascii -> ascii -> bool := Ascii.eqb.

Definition lower (c : ascii) : ascii :=
  let n := nat_of_ascii c in
  if ((65 <=? n) && (n <=? 90))%nat then ascii_of_nat (n + 32) else c.

Definition case_insensitive (c d : ascii) : bool :=
  Ascii.eqb (lower c) (lower d).

End Sql.

Import Sql.


(** ** The tables *)

(** [database.models]. *)
Inductive models : Type :=
| releases | release_images | styles | categories | offers.

Definition model : models := releases.
Definition releaseImageModel : models := release_images.
Definition styleModel : models := styles.
Definition categoriesModel : models := categories.
Definition offerModel : models := offers.

(** A row of [releases]; [releaseDate] is the one nullable column. *)
Module ReleaseRow.

Record t : Type := make {
  id : Z;
  slug : string;
  name : string;
  sku : string;
  gender : string;
  color : string;
  releaseDate : option Z;
  priceEUR : Q;
  priceGBP : Q;
  priceUSD : Q;
  hiddenDashboard : bool;
  updatedAt : Z
}.

Definition date_cell (d : option Z) : cell :=
  match d with Some t => Date t | None => Null end.

(** The row as the backend sees it. *)
Definition columns (r : t) : row := fun attr =>
  if String.eqb attr "id" then Some (Number (inject_Z (id r)))
  else if String.eqb attr "slug" then Some (Text (slug r))
  else if String.eqb attr "name" then Some (Text (name r))
  else if String.eqb attr "sku" then Some (Text (sku r))
  else if String.eqb attr "gender" then Some (Text (gender r))
  else if String.eqb attr "color" then Some (Text (color r))
  else if String.eqb attr "releaseDate" then Some (date_cell (releaseDate r))
  else if String.eqb attr "priceEUR" then Some (Number (priceEUR r))
  else if String.eqb attr "priceGBP" then Some (Number (priceGBP r))
  else if String.eqb attr "priceUSD" then Some (Number (priceUSD r))
  else if String.eqb attr "hiddenDashboard" then Some (Boolean (hiddenDashboard r))
  else if String.eqb attr "updatedAt" then Some (Date (updatedAt r))
  else None.

End ReleaseRow.

(** A row of [release_images]; [releaseId] is the owning release, when
    the image has one. *)
Module ImageRow.

Record t : Type := make {
  id : Z;
  releaseId : option Z;
  image : string
}.

End ImageRow.

(** ** The options of every query *)

(** An entry of [include]: the joined model, its alias, the columns to
    load ([None] when [attributes] is not given: all of them), and the
    entries nested under it. *)
Inductive inclusion : Type :=
| Include (joined : models) (alias : string)
          (attributes : option (list string)) (nested : list inclusion).

Record options : Type := Options {
  include : list inclusion;
  distinct : bool
}.

(** The parameter object of a request: its keys with their values. *)
Definition params : Type := list (string * JS.value).

Definition getOptionsCallback (params : params) : options :=
  {| include :=
       [ Include releaseImageModel "images" None [];
         Include styleModel "style" (Some ["id"; "brand"; "category"])
                 [Include categoriesModel "categories" None []];
         Include offerModel "offers" (Some ["status"; "raffle"; "shipping"]) [] ];
     distinct := true |}.

(** ** The filter registry *)

(** What a filter function returns: the where object, and the joined
    model it applies to ([None] for the release itself). *)
Record fragment : Type := Fragment {
  filter : clause;
  target : option models
}.

(** Sequencing, for the two kinds of computation below. *)
Class Monad (M : Type -> Type) : Type := {
  ret : forall {A}, A -> M A;
  bind : forall {A B}, M A -> (A -> M B) -> M B;
  throw : forall {A}, error -> M A
}.

Notation "x <- m ;; k" := (bind m (fun x => k))
  (at level 61, m at next level, right associativity).

(** A filter function runs against the clock and returns or throws. *)
Definition Eval (A : Type) : Type := Z -> result A.

#[export] Instance Eval_monad : Monad Eval := {
  ret A a := fun _ => Ok a;
  bind A B m k :=
    fun now => match m now with Ok a => k a now | Throw e => Throw e end;
  throw A e := fun _ => Throw e
}.

Definition ms_per_day : Z := 86400000.

(** [new Date(moment.utc().format('YYYY-MM-DD'))]: midnight UTC of the
    current UTC day. *)
Definition utc_today : Eval Z :=
  fun now => Ok (ms_per_day * (now / ms_per_day)).

Module filterMappings.

(** [Array.isArray(value) ? { [Op.or]: value } : value]. *)
Definition or_of_values (value : JS.value) : cond :=
  match value with
  | Arr l => Or (map (fun v => Val (OStr v)) l)
  | Str s => Val (OStr s)
  end.

Definition brandId (value : JS.value) : Eval fragment :=
  ret {| filter := Attr "brand" (or_of_values value);
         target := Some styleModel |}.

Definition categoryId (value : JS.value) : Eval fragment :=
  ret {| filter := Attr "id" (or_of_values value);
         target := Some categoriesModel |}.

Definition status (value : JS.value) : Eval fragment :=
  ret {| filter := Attr "status" (or_of_values value);
         target := Some offerModel |}.

Definition shipping (value : JS.value) : Eval fragment :=
  ret {| filter := Attr "shipping" (or_of_values value);
         target := Some offerModel |}.

Definition outdated (value : JS.value) : Eval fragment :=
  date <- utc_today ;;
  ret {| filter := Attr "releaseDate"
                     (And [Cmp lt (ODate (Some date)); Cmp ne ONull]);
         target := None |}.

Definition coming (value : JS.value) : Eval fragment :=
  date <- utc_today ;;
  ret {| filter := Attr "releaseDate"
                     (And [Cmp gte (ODate (Some date)); Cmp ne ONull]);
         target := None |}.

Definition upcoming (value : JS.value) : Eval fragment :=
  if is_zero (parseInt value) then
    ret {| filter := Attr "releaseDate" (Cmp ne ONull); target := None |}
  else
    ret {| filter := Attr "releaseDate" (Val ONull); target := None |}.

Definition minPriceEUR (value : JS.value) : Eval fragment :=
  ret {| filter := Attr "priceEUR" (Cmp gte (ONum (parseFloat value)));
         target := None |}.

Definition maxPriceEUR (value : JS.value) : Eval fragment :=
  ret {| filter := Attr "priceEUR" (Cmp lte (ONum (parseFloat value)));
         target := None |}.

Definition minPriceGBP (value : JS.value) : Eval fragment :=
  ret {| filter := Attr "priceGBP" (Cmp gte (ONum (parseFloat value)));
         target := None |}.

Definition maxPriceGBP (value : JS.value) : Eval fragment :=
  ret {| filter := Attr "priceGBP" (Cmp lte (ONum (parseFloat value)));
         target := None |}.

Definition minPriceUSD (value : JS.value) : Eval fragment :=
  ret {| filter := Attr "priceUSD" (Cmp gte (ONum (parseFloat value)));
         target := None |}.

Definition maxPriceUSD (value : JS.value) : Eval fragment :=
  ret {| filter := Attr "priceUSD" (Cmp lte (ONum (parseFloat value)));
         target := None |}.

Section Dates.

(** [moment.utc(value)]: the instant the library reads from the
    value at the time of the call, [None] when it yields an invalid
    moment.  The library may read the clock (on an empty array, which
    stands for no input, it yields the current instant); it never
    throws. *)
Variable moment_utc : JS.value -> Z -> option Z.

(** The call [moment.utc(value)], made at the reading of the clock. *)
Definition call_moment_utc (value : JS.value) : Eval (option Z) :=
  fun now => Ok (moment_utc value now).

Definition fromDate (value : JS.value) : Eval fragment :=
  date <- call_moment_utc value ;;
  ret {| filter := Attr "releaseDate" (Cmp gte (ODate date));
         target := None |}.

Definition toDate (value : JS.value) : Eval fragment :=
  date <- call_moment_utc value ;;
  ret {| filter := Attr "releaseDate" (Cmp lte (ODate date));
         target := None |}.

End Dates.

Definition gender (value : JS.value) : Eval fragment :=
  ret {| filter :=
           Attr "gender"
             (match value with
              | Arr l => Or (map (fun v => Val (OStr v)) (l ++ ["u"])%list)
              | Str s => Or (map (fun v => Val (OStr v)) [s; "u"])
              end);
         target := None |}.

Definition color (value : JS.value) : Eval fragment :=
  let colors := match value with Arr l => l | Str s => [s] end in
  let likes := map (fun color => Cmp like (OStr ("%" ++ color ++ "%"))) colors in
  ret {| filter := Attr "color" (Or likes); target := None |}.

(** [value.split] is a function on strings only: on an array the
    call throws a [TypeError]. *)
Definition query (value : JS.value) : Eval fragment :=
  match value with
  | Str s =>
      let words := split_spaces s in
      let likes := map (fun word => Cmp like (OStr ("%" ++ word ++ "%"))) words in
      ret {| filter := OrAttrs [("name", And likes); ("sku", And likes)];
             target := None |}
  | Arr _ => throw TypeError
  end.

(** The object itself: its keys, in order, with their functions. *)
Definition entries (moment_utc : JS.value -> Z -> option Z)
  : list (string * (JS.value -> Eval fragment)) :=
  [ ("brandId", brandId); ("categoryId", categoryId);
    ("status", status); ("shipping", shipping);
    ("outdated", outdated); ("coming", coming); ("upcoming", upcoming);
    ("minPriceEUR", minPriceEUR); ("maxPriceEUR", maxPriceEUR);
    ("minPriceGBP", minPriceGBP); ("maxPriceGBP", maxPriceGBP);
    ("minPriceUSD", minPriceUSD); ("maxPriceUSD", maxPriceUSD);
    ("fromDate", fromDate moment_utc); ("toDate", toDate moment_utc);
    ("gender", gender); ("color", color); ("query", query) ].

(** [filterMappings[key]]. *)
Definition get (moment_utc : JS.value -> Z -> option Z) (key : string)
  : option (JS.value -> Eval fragment) :=
  option_map snd
    (find (fun e => String.eqb (fst e) key) (entries moment_utc)).

End filterMappings.

(** Whether the fragment a filter call produced selects the release
    [r]; a call that threw selects nothing. *)
Definition matches (collate : ascii -> ascii -> bool)
  (res : result fragment) (r : ReleaseRow.t) : bool :=
  match res with
  | Ok f => selects collate (filter f) (ReleaseRow.columns r)
  | Throw _ => false
  end.

(** ** The database and the model methods the facade calls *)

Record database : Type := Database {
  releases_table : list ReleaseRow.t;
  images_table : list ImageRow.t;
  next_image_id : Z  (* the next key [release_images] hands out *)
}.

(** An asynchronous operation: it runs against the clock and the
    database, and resolves or rejects.  What it wrote before rejecting
    stays written: the facade opens no transaction. *)
Definition Async (A : Type) : Type := Z -> database -> result A * database.

#[export] Instance Async_monad : Monad Async := {
  ret A a := fun _ d => (Ok a, d);
  bind A B m k :=
    fun now d =>
      match m now d with
      | (Ok a, d') => k a now d'
      | (Throw e, d') => (Throw e, d')
      end;
  throw A e := fun _ d => (Throw e, d)
}.

(** An object (an array, a promise) is truthy, whatever it holds. *)
Definition truthy {A} (object : A) : bool := true.

(** [{ id }]. *)
Definition where_id (id : Z) : clause :=
  Attr "id" (Val (ONum (Num (inject_Z id)))).

Module ImageModel.

(** The rows [bulkCreate] builds, keyed from [next] on. *)
Fixpoint build (next : Z) (images : list string) : list ImageRow.t :=
  match images with
  | [] => []
  | image :: rest => ImageRow.make next None image :: build (next + 1) rest
  end.

(** [releaseImageModel.bulkCreate(images)]: inserts one row per
    record and resolves to the created rows. *)
Definition bulkCreate (images : list string) : Async (list ImageRow.t) :=
  fun _ d =>
    let created := build (next_image_id d) images in
    (Ok created,
     {| releases_table := releases_table d;
        images_table := images_table d ++ created;
        next_image_id := next_image_id d + Z.of_nat (List.length images) |}).

Definition has_id (ids : list Z) (i : ImageRow.t) : bool :=
  existsb (Z.eqb (ImageRow.id i)) ids.

Definition set_releaseId (owner : Z) (i : ImageRow.t) : ImageRow.t :=
  ImageRow.make (ImageRow.id i) (Some owner) (ImageRow.image i).

(** [release.addImages(newImages)]: one update that points the rows
    keyed like [newImages] at the release. *)
Definition addImages (release : ReleaseRow.t) (newImages : list ImageRow.t)
  : Async unit :=
  fun _ d =>
    let ids := map ImageRow.id newImages in
    (Ok tt,
     {| releases_table := releases_table d;
        images_table :=
          map (fun i => if has_id ids i
                        then set_releaseId (ReleaseRow.id release) i
                        else i)
              (images_table d);
        next_image_id := next_image_id d |}).

Definition owned_by (owner : Z) (i : ImageRow.t) : bool :=
  match ImageRow.releaseId i with
  | Some o => o =? owner
  | None => false
  end.

(** [release.getImages()]. *)
Definition getImages (release : ReleaseRow.t) : Async (list ImageRow.t) :=
  fun _ d =>
    (Ok (List.filter (owned_by (ReleaseRow.id release)) (images_table d)), d).

(** [releaseImageModel.destroy({ where: { id } })]. *)
Definition destroy (id : Z) : Async nat :=
  fun _ d =>
    let gone := List.filter (fun i => ImageRow.id i =? id) (images_table d) in
    (Ok (List.length gone),
     {| releases_table := releases_table d;
        images_table :=
          List.filter (fun i => negb (ImageRow.id i =? id)) (images_table d);
        next_image_id := next_image_id d |}).

End ImageModel.

Module ReleaseModel.

Section Backend.

Variable collate : ascii -> ascii -> bool.

(** Modelled from the spec: the definition of the [releases] model
    is not in this file.  The spec speaks of the "automatic
    timestamp-management behavior of the persistence layer", which
    [modifyUpdatedAt] goes around with a raw statement;
    [timestamps] tells whether the model is defined with it, in
    which case every [update] through the model also writes the
    time of the call to [updatedAt]. *)
Variable timestamps : bool.

Definition selected (w : clause) (r : ReleaseRow.t) : bool :=
  selects collate w (ReleaseRow.columns r).

(** [model.findAll({ where })]. *)
Definition findAll (w : clause) : Async (list ReleaseRow.t) :=
  fun _ d => (Ok (List.filter (selected w) (releases_table d)), d).

(** [model.findOne({ where })]: the first such row, or [null]. *)
Definition findOne (w : clause) : Async (option ReleaseRow.t) :=
  fun _ d => (Ok (List.find (selected w) (releases_table d)), d).

Definition set_hiddenDashboard (b : bool) (r : ReleaseRow.t) : ReleaseRow.t :=
  let 'ReleaseRow.make id slug name sku gender color releaseDate
                       priceEUR priceGBP priceUSD _ updatedAt := r in
  ReleaseRow.make id slug name sku gender color releaseDate
                  priceEUR priceGBP priceUSD b updatedAt.

Definition set_updatedAt (t : Z) (r : ReleaseRow.t) : ReleaseRow.t :=
  let 'ReleaseRow.make id slug name sku gender color releaseDate
                       priceEUR priceGBP priceUSD hiddenDashboard _ := r in
  ReleaseRow.make id slug name sku gender color releaseDate
                  priceEUR priceGBP priceUSD hiddenDashboard t.

(** [model.update(values, { where })]: writes [values] to the
    selected rows and resolves to the one-element array
    [[affectedCount]] that holds their number. *)
Definition update (values : ReleaseRow.t -> ReleaseRow.t) (w : clause)
  : Async (list nat) :=
  fun now d =>
    let write r := if timestamps then set_updatedAt now (values r)
                   else values r in
    (Ok [List.length (List.filter (selected w) (releases_table d))],
     {| releases_table :=
          map (fun r => if selected w r then write r else r)
              (releases_table d);
        images_table := images_table d;
        next_image_id := next_image_id d |}).

(** [database.sequelize.query('update releases set updatedAt=:updatedAt
    where id=:id', ...)]: a statement of its own, past the model. *)
Definition raw_update_updatedAt (updatedAt id : Z) : Async unit :=
  fun _ d =>
    (Ok tt,
     {| releases_table :=
          map (fun r => if ReleaseRow.id r =? id
                        then set_updatedAt updatedAt r else r)
              (releases_table d);
        images_table := images_table d;
        next_image_id := next_image_id d |}).

End Backend.

End ReleaseModel.

(** ** The repository facade *)

Section Repository.

Variable collate : ascii -> ascii -> bool.
Variable timestamps : bool.

(** The domain conversions [Release] and [ReleaseImage], defined
    elsewhere. *)
Variables DomainRelease DomainImage : Type.
Variable Release : ReleaseRow.t -> DomainRelease.
Variable ReleaseImage : ImageRow.t -> DomainImage.

Definition createImages (id : Z) (images : list string)
  : Async (list ImageRow.t) :=
  release <- ReleaseModel.findOne collate (where_id id) ;;
  match release with
  | None => throw EntityNotFound
  | Some release =>
      newImages <- ImageModel.bulkCreate images ;;
      _ <- ImageModel.addImages release newImages ;;
      ret newImages
  end.

(** Modelled from the spec: which promises the ORM returns is settled
    by its version, which is not in this file.  The spec has
    [getAllImages] return the converted images, which is what
    [images.map] gives on a promise that carries a [map] method of its
    own (Bluebird's, in Sequelize up to version 5): the promise of the
    mapped array. *)
Definition promise_map {A B} (p : Async (list A)) (f : A -> B)
  : Async (list B) :=
  rows <- p ;; ret (map f rows).

(** [release.getImages()] is not awaited: [images] is the promise,
    which is an object, so the test of [!images] never succeeds, and
    [images.map] is the [map] of the promise. *)
Definition getAllImages (id : Z) : Async (list DomainImage) :=
  release <- ReleaseModel.findOne collate (where_id id) ;;
  match release with
  | None => throw EntityNotFound
  | Some release =>
      let images := ImageModel.getImages release in
      if negb (truthy images) then ret []
      else promise_map images (fun dataValues => ReleaseImage dataValues)
  end.

Definition getPastReleases (date : Z) : Async (list DomainRelease) :=
  releases <- ReleaseModel.findAll collate (Attr "releaseDate" (Cmp lt (ODate (Some date)))) ;;
  ret (map (fun data => Release data) releases).

Definition countLikeReleases (slug : string) : Async nat :=
  releases <- ReleaseModel.findAll collate (Attr "slug" (Cmp like (OStr (slug ++ "%")))) ;;
  if negb (truthy releases) then ret 0%nat
  else ret (List.length releases).

Definition destroyImage (id : Z) : Async nat := ImageModel.destroy id.

Definition setHiddenDashboard (id : Z) (hiddenDashboard : bool)
  : Async (list nat) :=
  ReleaseModel.update collate timestamps
    (ReleaseModel.set_hiddenDashboard hiddenDashboard) (where_id id).

Definition modifyUpdatedAt (id updatedAt : Z) : Async unit :=
  ReleaseModel.raw_update_updatedAt updatedAt id.

End Repository.

Arguments getAllImages collate {DomainImage} ReleaseImage id.
Arguments getPastReleases collate {DomainRelease} Release date.

(** ** Vocabulary of the statements *)

(** No [LIKE] wildcard occurs in the string. *)
Fixpoint wildcard_free (s : string) : bool :=
  match s with
  | EmptyString => true
  | String c s' =>
      negb (Ascii.eqb c "%") && negb (Ascii.eqb c "_") && wildcard_free s'
  end.

Fixpoint ends_with_space (s : string) : bool :=
  match s with
  | EmptyString => false
  | String c EmptyString => is_space c
  | String _ s' => ends_with_space s'
  end.

Fixpoint no_space (s : string) : bool :=
  match s with
  | EmptyString => true
  | String c s' => negb (is_space c) && no_space s'
  end.

Section Collated.

Variable collate : ascii -> ascii -> bool.

(** [s] starts with [p], characters compared under the collation. *)
Fixpoint starts_with (p s : string) : bool :=
  match p, s with
  | EmptyString, _ => true
  | String c p', String d s' => collate c d && starts_with p' s'
  | String _ _, EmptyString => false
  end.

(** [w] occurs in [s] at some position. *)
Fixpoint contains (w s : string) : bool :=
  starts_with w s ||
  match s with
  | String _ s' => contains w s'
  | EmptyString => false
  end.

(** The same two notions, spelled out on the pieces of [s]. *)
Definition Prefix (p s : string) : Prop :=
  exists m rest, s = m ++ rest /\ text_eq collate p m = true.

Definition Substring (w s : string) : Prop :=
  exists a m b, s = a ++ m ++ b /\ text_eq collate w m = true.

End Collated.

(** The string does not start with a numeral: past the leading white
    space and the sign there is neither a digit, nor a point, nor
    [Infinity]. *)
Definition no_numeric_prefix (s : string) : bool :=
  let body := snd (read_sign (trim_start s)) in
  negb (String.prefix "Infinity" body) &&
  match body with
  | String c _ =>
      match digit c with
      | Some _ => false
      | None => negb (Ascii.eqb c ".")
      end
  | EmptyString => true
  end.

(** The values a [gender] request names. *)
Definition requested (value : JS.value) : list string :=
  match value with Arr l => l | Str s => [s] end.

(** Midnight UTC of the day of [now]. *)
Definition today (now : Z) : Z := ms_per_day * (now / ms_per_day).

(** Every image row is keyed below the key the table hands out next. *)
Definition keys_fresh (d : database) : Prop :=
  Forall (fun i => ImageRow.id i < next_image_id d) (images_table d).

(** Every character of the string is white space. *)
Fixpoint blank (s : string) : bool :=
  match s with
  | EmptyString => true
  | String c s' => is_space c && blank s'
  end.

Definition models_eqb (a b : models) : bool :=
  match a, b with
  | releases, releases | release_images, release_images
  | styles, styles | categories, categories | offers, offers => true
  | _, _ => false
  end.

(** The entry, or one nested under it, joins model [m] and loads its
    column [attr]. *)
Fixpoint loads (m : models) (attr : string) (i : inclusion) : bool :=
  match i with
  | Include joined _ attributes nested =>
      models_eqb m joined &&
      match attributes with
      | None => true
      | Some l => existsb (String.eqb attr) l
      end
      || existsb (loads m attr) nested
  end.

(** The columns a where object names. *)
Definition clause_attrs (w : clause) : list string :=
  match w with
  | Attr a _ => [a]
  | OrAttrs alts => map fst alts
  end.

(** The release date, when there is one and it is before [date]. *)
Definition dated_before (date : Z) (r : ReleaseRow.t) : bool :=
  match ReleaseRow.releaseDate r with
  | Some t => t <? date
  | None => false
  end.

(** No two image rows share a key. *)
Definition keys_unique (d : database) : Prop :=
  NoDup (map ImageRow.id (images_table d)).

(** The methods [Object.assign] puts on the repository, with their
    arguments. *)
Inductive operation : Type :=
| CreateImages (id : Z) (images : list string)
| DestroyImage (id : Z)
| GetAllImages (id : Z)
| GetPastReleases (date : Z)
| SetHiddenDashboard (id : Z) (hiddenDashboard : bool)
| CountLikeReleases (slug : string)
| ModifyUpdatedAt (id updatedAt : Z).

Section After.

Variable collate : ascii -> ascii -> bool.
Variable timestamps : bool.
Variables DomainRelease DomainImage : Type.
Variable Release : ReleaseRow.t -> DomainRelease.
Variable ReleaseImage : ImageRow.t -> DomainImage.

(** The database a call leaves behind, whether it resolves or
    rejects. *)
Definition after (op : operation) (now : Z) (d : database) : database :=
  match op with
  | CreateImages id images => snd (createImages collate id images now d)
  | DestroyImage id => snd (destroyImage id now d)
  | GetAllImages id => snd (getAllImages collate ReleaseImage id now d)
  | GetPastReleases date => snd (getPastReleases collate Release date now d)
  | SetHiddenDashboard id b =>
      snd (setHiddenDashboard collate timestamps id b now d)
  | CountLikeReleases slug => snd (countLikeReleases collate slug now d)
  | ModifyUpdatedAt id t => snd (modifyUpdatedAt id t now d)
  end.

(** The database after a sequence of calls, each at its own time. *)
Fixpoint after_all (calls : list (operation * Z)) (d : database) : database :=
  match calls with
  | [] => d
  | (op, now) :: rest => after_all rest (after op now d)
  end.

End After.

Arguments after collate timestamps {DomainRelease DomainImage}
  Release ReleaseImage op now d.
Arguments after_all collate timestamps {DomainRelease DomainImage}
  Release ReleaseImage calls d.

(** A release row stripped of the two columns the facade writes. *)
Definition fixed_columns (r : ReleaseRow.t) :=
  (ReleaseRow.id r, ReleaseRow.slug r, ReleaseRow.name r, ReleaseRow.sku r,
   ReleaseRow.gender r, ReleaseRow.color r, ReleaseRow.releaseDate r,
   ReleaseRow.priceEUR r, ReleaseRow.priceGBP r, ReleaseRow.priceUSD r).

Definition reads_only (op : operation) : bool :=
  match op with
  | GetAllImages _ | GetPastReleases _ | CountLikeReleases _ => true
  | _ => false
  end.

(** ** Sample data *)

Definition air_maximus : ReleaseRow.t :=
  ReleaseRow.make 1 "air-maximus" "Air Maximus" "AM-0001" "m" "red"
                  None 100 90 110 false 0.

Definition sample_release (id : Z) (slug : string) : ReleaseRow.t :=
  ReleaseRow.make id slug "Air Jordan" "AJ-0000" "u" "red"
                  None 100 90 110 false 0.

(** Three releases, the first with one image; a second image is owned
    by no release. *)
Definition store : database :=
  {| releases_table :=
       [sample_release 1 "AJ1-red"; sample_release 2 "AJ1-blue";
        sample_release 3 "AJ4-red"];
     images_table :=
       [ImageRow.make 1 (Some 1) "a.png"; ImageRow.make 2 None "b.png"];
     next_image_id := 3 |}.

(** A reading of [moment.utc] that knows one input only, the empty
    array: no input, which is the current instant. *)
Definition moment_of_empty (value : JS.value) (now : Z) : option Z :=
  match value with
  | Arr [] => Some now
  | _ => None
  end.

(** * Facts *)

(** ** Strings and patterns *)

Section LikeFacts.

Variable collate : ascii -> ascii -> bool.

Lemma like_match_percent (p s : string) :
  like_match collate (String "%" p) s =
  like_match collate p s ||
  match s with
  | String _ s' => like_match collate (String "%" p) s'
  | EmptyString => false
  end.
Proof. destruct s; reflexivity. Qed.

Lemma like_match_literal (c : ascii) (p s : string) :
  Ascii.eqb c "%" = false -> Ascii.eqb c "_" = false ->
  like_match collate (String c p) s =
  match s with
  | String d s' => collate c d && like_match collate p s'
  | EmptyString => false
  end.
Proof. intros H1 H2. simpl. rewrite H1, H2. reflexivity. Qed.

Lemma like_match_any (s : string) : like_match collate "%" s = true.
Proof.
  induction s as [|c s IH].
  - reflexivity.
  - rewrite like_match_percent, IH. apply orb_true_r.
Qed.

Lemma wildcard_free_cons (c : ascii) (s : string) :
  wildcard_free (String c s) = true ->
  Ascii.eqb c "%" = false /\ Ascii.eqb c "_" = false /\ wildcard_free s = true.
Proof.
  simpl. intros H.
  apply andb_true_iff in H as [H Hs].
  apply andb_true_iff in H as [H1 H2].
  apply negb_true_iff in H1, H2. auto.
Qed.

(** A wildcard-free pattern followed by [%] asks for a prefix. *)
Lemma like_prefix (p : string) :
  wildcard_free p = true ->
  forall s, like_match collate (p ++ "%") s = starts_with collate p s.
Proof.
  induction p as [|c p IH]; intros Hp s.
  - simpl append. rewrite like_match_any. reflexivity.
  - apply wildcard_free_cons in Hp as (H1 & H2 & Hp).
    simpl append. rewrite (like_match_literal c _ _ H1 H2).
    destruct s as [|d s]; simpl; [reflexivity|].
    rewrite (IH Hp). reflexivity.
Qed.

(** Between two [%] it asks for an occurrence. *)
Lemma like_substring (w : string) :
  wildcard_free w = true ->
  forall s, like_match collate ("%" ++ w ++ "%") s = contains collate w s.
Proof.
  intros Hw s. change ("%" ++ w ++ "%") with (String "%" (w ++ "%")).
  induction s as [|d s IH].
  - rewrite like_match_percent, (like_prefix w Hw). simpl. reflexivity.
  - rewrite like_match_percent, (like_prefix w Hw), IH. reflexivity.
Qed.

Lemma starts_with_Prefix (p s : string) :
  starts_with collate p s = true <-> Prefix collate p s.
Proof.
  unfold Prefix. revert s. induction p as [|c p IH]; intros s; simpl.
  - split; [intros _|reflexivity].
    exists "", s. split; reflexivity.
  - destruct s as [|d s].
    + split; [discriminate|].
      intros (m & rest & E & H). destruct m; simpl in *; discriminate.
    + rewrite andb_true_iff, IH. split.
      * intros (Hc & m & rest & E & H).
        exists (String d m), rest. simpl. rewrite Hc, H, E. auto.
      * intros (m & rest & E & H).
        destruct m as [|d' m]; simpl in *; [discriminate|].
        injection E as -> ->.
        apply andb_true_iff in H as [Hc H].
        split; [assumption|]. exists m, rest. auto.
Qed.

Lemma contains_Substring (w s : string) :
  contains collate w s = true <-> Substring collate w s.
Proof.
  unfold Substring. induction s as [|d s IH]; simpl.
  - rewrite orb_false_r, starts_with_Prefix. unfold Prefix. split.
    + intros (m & rest & E & H). exists "", m, rest. auto.
    + intros (a & m & b & E & H).
      destruct a; simpl in E; [|discriminate]. exists m, b. auto.
  - rewrite orb_true_iff, starts_with_Prefix, IH. unfold Prefix. split.
    + intros [(m & rest & E & H) | (a & m & b & E & H)].
      * exists "", m, rest. auto.
      * exists (String d a), m, b. simpl. rewrite E. auto.
    + intros (a & m & b & E & H). destruct a as [|d' a]; simpl in E.
      * left. exists m, b. auto.
      * injection E as -> ->. right. exists a, m, b. auto.
Qed.

End LikeFacts.

Lemma text_eq_binary (a b : string) : text_eq binary a b = true <-> a = b.
Proof.
  revert b. induction a as [|c a IH]; intros [|d b]; simpl;
    try (split; [discriminate|discriminate]); try tauto.
  unfold binary at 1. rewrite andb_true_iff, IH, Ascii.eqb_eq.
  split; [intros [-> ->]; reflexivity | intros E; injection E; auto].
Qed.

(** ** Tokens *)

Lemma split_spaces_not_nil (s : string) : split_spaces s <> [].
Proof.
  induction s as [|c s IH]; simpl; [discriminate|].
  destruct (is_space c).
  - destruct (starts_with_space s); [assumption|discriminate].
  - destruct (split_spaces s); discriminate.
Qed.

(** The first token is empty exactly when nothing precedes the first
    run of white space. *)
Lemma split_spaces_head (s : string) :
  hd "" (split_spaces s) = "" <-> s = "" \/ starts_with_space s = true.
Proof.
  induction s as [|c s IH]; simpl.
  - tauto.
  - destruct (is_space c) eqn:Hc.
    + destruct (starts_with_space s) eqn:Hs; simpl; [|tauto].
      rewrite IH. tauto.
    + destruct (split_spaces s); simpl;
        (split; [discriminate | intros [H|H]; discriminate]).
Qed.

(** The later tokens are non-empty exactly when no run of white space
    ends the string. *)
Lemma split_spaces_tail (s : string) :
  Forall (fun w => w <> "") (tl (split_spaces s)) <->
  ends_with_space s = false.
Proof.
  induction s as [|c s IH].
  - simpl. split; [reflexivity | constructor].
  - assert (E : ends_with_space (String c s) =
                match s with "" => is_space c | _ => ends_with_space s end)
      by (destruct s; reflexivity).
    rewrite E. clear E. simpl split_spaces.
    destruct (is_space c) eqn:Hc.
    + destruct s as [|d s'].
      * simpl. split; [|discriminate].
        intros H. inversion H. congruence.
      * remember (String d s') as s eqn:Es.
        destruct (starts_with_space s) eqn:Hs.
        -- rewrite IH. subst s. reflexivity.
        -- simpl tl. rewrite <- IH.
           pose proof (split_spaces_head s) as Hh.
           pose proof (split_spaces_not_nil s) as Hn.
           destruct (split_spaces s) as [|w ws]; [congruence|]. simpl in *.
           assert (Hw : w <> "").
           { intros Ew. apply Hh in Ew as [Ew|Ew]; subst; congruence. }
           split.
           ++ intros H. inversion H. assumption.
           ++ intros H. constructor; assumption.
    + pose proof (split_spaces_not_nil s) as Hn.
      destruct (split_spaces s) as [|w ws] eqn:Ews; [congruence|].
      simpl in *. rewrite IH. destruct s; [simpl; tauto | tauto].
Qed.

Lemma split_spaces_nonempty (s : string) :
  Forall (fun w => w <> "") (split_spaces s) <->
  s <> "" /\ starts_with_space s = false /\ ends_with_space s = false.
Proof.
  pose proof (split_spaces_head s) as Hh.
  pose proof (split_spaces_tail s) as Ht.
  pose proof (split_spaces_not_nil s) as Hn.
  destruct (split_spaces s) as [|w ws]; [congruence|]. simpl in *.
  rewrite <- Ht. split.
  - intros H. inversion H as [|? ? Hw Hws]. subst.
    assert (~ (s = "" \/ starts_with_space s = true)) by (rewrite <- Hh; exact Hw).
    destruct (starts_with_space s); intuition congruence.
  - intros (H1 & H2 & H3). constructor; [|assumption].
    intros Ew. apply Hh in Ew as [Ew|Ew]; congruence.
Qed.

Lemma split_spaces_no_space (s : string) :
  Forall (fun w => no_space w = true) (split_spaces s).
Proof.
  induction s as [|c s IH]; simpl.
  - repeat constructor.
  - destruct (is_space c) eqn:Hc.
    + destruct (starts_with_space s); [assumption|].
      constructor; [reflexivity | assumption].
    + destruct (split_spaces s) as [|w ws].
      * repeat constructor. simpl. rewrite Hc. reflexivity.
      * inversion IH; subst. constructor; [|assumption].
        simpl. rewrite Hc. assumption.
Qed.

Lemma split_spaces_wildcard_free (s : string) :
  wildcard_free s = true ->
  Forall (fun w => wildcard_free w = true) (split_spaces s).
Proof.
  induction s as [|c s IH]; intros Hs.
  - repeat constructor.
  - apply wildcard_free_cons in Hs as (H1 & H2 & Hs).
    specialize (IH Hs). simpl.
    destruct (is_space c).
    + destruct (starts_with_space s); [assumption|].
      constructor; [reflexivity | assumption].
    + destruct (split_spaces s) as [|w ws].
      * repeat constructor. simpl. rewrite H1, H2. reflexivity.
      * inversion IH; subst. constructor; [|assumption].
        simpl. rewrite H1, H2. assumption.
Qed.

(** ** The [query] filter *)

Lemma forallb_map_compose {A B} (f : A -> B) (g : B -> bool) (l : list A) :
  forallb g (map f l) = forallb (fun a => g (f a)) l.
Proof. induction l as [|a l IH]; simpl; [|rewrite IH]; reflexivity. Qed.

Lemma existsb_map_compose {A B} (f : A -> B) (g : B -> bool) (l : list A) :
  existsb g (map f l) = existsb (fun a => g (f a)) l.
Proof. induction l as [|a l IH]; simpl; [|rewrite IH]; reflexivity. Qed.

(** What the backend is asked: every token, wrapped in [%], against
    [name], or every token against [sku]. *)
Lemma query_selects (collate : ascii -> ascii -> bool)
  (s : string) (now : Z) (r : ReleaseRow.t) :
  matches collate (filterMappings.query (Str s) now) r =
  forallb (fun w => like_match collate ("%" ++ w ++ "%") (ReleaseRow.name r))
          (split_spaces s) ||
  forallb (fun w => like_match collate ("%" ++ w ++ "%") (ReleaseRow.sku r))
          (split_spaces s).
Proof.
  unfold matches, filterMappings.query. cbn.
  rewrite !forallb_map_compose, orb_false_r. reflexivity.
Qed.

Lemma all_tokens_occur (collate : ascii -> ascii -> bool)
  (words : list string) (field : string) :
  Forall (fun w => wildcard_free w = true) words ->
  forallb (fun w => like_match collate ("%" ++ w ++ "%") field) words = true <->
  Forall (fun w => Substring collate w field) words.
Proof.
  intros Hw. rewrite forallb_forall, Forall_forall.
  rewrite Forall_forall in Hw.
  split; intros H w Hin; specialize (H w Hin).
  - rewrite like_substring in H by auto. apply contains_Substring. exact H.
  - rewrite like_substring by auto. apply contains_Substring. exact H.
Qed.

(** C1, as the code has it.  For a string holding no [LIKE] wildcard,
    the predicate of the [query] filter holds of a release if and only
    if every token occurs in its [name], or every token occurs in its
    [sku] (characters compared under the collation of the backend).
    The tokens are the pieces between runs of white space: none holds a
    white-space character, and all are non-empty exactly when the
    string is non-empty and neither starts nor ends with white space. *)
Theorem query_matches_all_tokens (collate : ascii -> ascii -> bool)
  (s : string) (now : Z) (r : ReleaseRow.t) :
  wildcard_free s = true ->
  (matches collate (filterMappings.query (Str s) now) r = true <->
     Forall (fun w => Substring collate w (ReleaseRow.name r)) (split_spaces s) \/
     Forall (fun w => Substring collate w (ReleaseRow.sku r)) (split_spaces s))
  /\ Forall (fun w => no_space w = true) (split_spaces s)
  /\ (Forall (fun w => w <> "") (split_spaces s) <->
      s <> "" /\ starts_with_space s = false /\ ends_with_space s = false).
Proof.
  intros Hs. pose proof (split_spaces_wildcard_free s Hs) as Hw.
  split; [|split].
  - rewrite query_selects, orb_true_iff.
    rewrite !(all_tokens_occur collate _ _ Hw). reflexivity.
  - apply split_spaces_no_space.
  - apply split_spaces_nonempty.
Qed.

Lemma query_matches_all_tokens_witness :
  wildcard_free "air max" = true /\
  matches case_insensitive (filterMappings.query (Str "air max") 0) air_maximus
  = true.
Proof.
  split; [reflexivity|].
  apply (query_matches_all_tokens case_insensitive "air max" 0 air_maximus
           eq_refl).
  left. apply Forall_forall. intros w Hw.
  apply contains_Substring.
  destruct Hw as [<-|[<-|[]]]; reflexivity.
Defined.

(** C1 as stated fails twice.  A string that starts with white space
    splits into tokens the first of which is empty; and a token holding
    a wildcard matches a name it does not occur in. *)
Lemma query_claim_counterexample :
  split_spaces " air" = [""; "air"] /\
  (matches case_insensitive (filterMappings.query (Str "a_r") 0) air_maximus
   = true /\
   contains case_insensitive "a_r" (ReleaseRow.name air_maximus) = false /\
   contains case_insensitive "a_r" (ReleaseRow.sku air_maximus) = false).
Proof. repeat split. Qed.

(** ** The [gender] filter *)

(** A non-empty [Op.or] asks for one of its conditions. *)
Lemma holds_Or_some (collate : ascii -> ascii -> bool)
  (cs : list cond) (x : cell) :
  cs <> [] ->
  holds collate (Or cs) x = existsb (fun c => holds collate c x) cs.
Proof. destruct cs; [congruence | reflexivity]. Qed.

Lemma gender_selects (collate : ascii -> ascii -> bool)
  (v : JS.value) (now : Z) (r : ReleaseRow.t) :
  matches collate (filterMappings.gender v now) r =
  existsb (fun g => text_eq collate g (ReleaseRow.gender r))
          (requested v ++ ["u"]).
Proof.
  unfold matches, filterMappings.gender, requested.
  cbn -[holds app map]. destruct v as [s|l].
  - reflexivity.
  - rewrite holds_Or_some, existsb_map_compose; [reflexivity|].
    destruct l; discriminate.
Qed.

Lemma gender_matches_collated (collate : ascii -> ascii -> bool)
  (v : JS.value) (now : Z) (r : ReleaseRow.t) :
  matches collate (filterMappings.gender v now) r = true <->
  exists g, (In g (requested v) \/ g = "u") /\
            text_eq collate g (ReleaseRow.gender r) = true.
Proof.
  rewrite gender_selects, existsb_exists.
  split; intros (g & Hg & E); exists g; split; try assumption.
  - apply in_app_or in Hg as [Hg|[<-|[]]]; auto.
  - apply in_or_app. destruct Hg as [Hg| ->]; [left|right; left]; auto.
Qed.

Lemma gender_matches_exact (v : JS.value) (now : Z) (r : ReleaseRow.t) :
  matches binary (filterMappings.gender v now) r = true <->
  In (ReleaseRow.gender r) (requested v) \/ ReleaseRow.gender r = "u".
Proof.
  rewrite gender_matches_collated. split.
  - intros (g & Hg & E). apply text_eq_binary in E. subst g. exact Hg.
  - intros Hg. exists (ReleaseRow.gender r).
    split; [|apply text_eq_binary; reflexivity].
    destruct Hg as [Hg|Hg]; auto.
Qed.

(** C2.  The predicate of the [gender] filter holds of a release
    exactly when its gender equals, for the backend, one of the
    requested values or ['u']; under exact comparison this is
    membership in the request or being ["u"], and a request for ['m']
    matches the genders ["m"] and ["u"] and no other. *)
Theorem gender_matches_requested_or_u (collate : ascii -> ascii -> bool)
  (v : JS.value) (now : Z) (r : ReleaseRow.t) :
  (matches collate (filterMappings.gender v now) r = true <->
     exists g, (In g (requested v) \/ g = "u") /\
               text_eq collate g (ReleaseRow.gender r) = true)
  /\ (matches binary (filterMappings.gender v now) r = true <->
        In (ReleaseRow.gender r) (requested v) \/ ReleaseRow.gender r = "u")
  /\ (matches binary (filterMappings.gender (Str "m") now) r = true <->
        ReleaseRow.gender r = "m" \/ ReleaseRow.gender r = "u").
Proof.
  split; [apply gender_matches_collated|].
  split; [apply gender_matches_exact|].
  rewrite gender_matches_exact. simpl. intuition congruence.
Qed.

(** ** The [outdated] and [coming] filters *)

Lemma today_bounds (now : Z) :
  today now <= now < today now + ms_per_day /\ today now mod ms_per_day = 0.
Proof.
  unfold today, ms_per_day. split.
  - pose proof (Z.mul_div_le now 86400000 eq_refl).
    pose proof (Z.mul_succ_div_gt now 86400000 eq_refl). lia.
  - rewrite Z.mul_comm. apply Z.mod_mul. discriminate.
Qed.

Lemma outdated_selects (collate : ascii -> ascii -> bool)
  (v : JS.value) (now : Z) (r : ReleaseRow.t) :
  matches collate (filterMappings.outdated v now) r =
  match ReleaseRow.releaseDate r with
  | Some d => d <? today now
  | None => false
  end.
Proof.
  unfold matches. cbn. destruct (ReleaseRow.releaseDate r); cbn.
  - rewrite !andb_true_r. reflexivity.
  - reflexivity.
Qed.

Lemma coming_selects (collate : ascii -> ascii -> bool)
  (v : JS.value) (now : Z) (r : ReleaseRow.t) :
  matches collate (filterMappings.coming v now) r =
  match ReleaseRow.releaseDate r with
  | Some d => today now <=? d
  | None => false
  end.
Proof.
  unfold matches. cbn. destruct (ReleaseRow.releaseDate r); cbn.
  - rewrite !andb_true_r. reflexivity.
  - reflexivity.
Qed.

(** C3.  At one reading of the clock, a release with a release date
    satisfies exactly one of [outdated] (date strictly before midnight
    UTC of the current day) and [coming] (date at or after it); a
    release without a release date satisfies neither. *)
Theorem outdated_coming_partition (collate : ascii -> ascii -> bool)
  (v v' : JS.value) (now : Z) (r : ReleaseRow.t) :
  match ReleaseRow.releaseDate r with
  | Some d =>
      (matches collate (filterMappings.outdated v now) r = true <-> d < today now)
      /\ (matches collate (filterMappings.coming v' now) r = true <-> today now <= d)
      /\ matches collate (filterMappings.outdated v now) r =
         negb (matches collate (filterMappings.coming v' now) r)
  | None =>
      matches collate (filterMappings.outdated v now) r = false
      /\ matches collate (filterMappings.coming v' now) r = false
  end.
Proof.
  rewrite outdated_selects, coming_selects.
  destruct (ReleaseRow.releaseDate r) as [d|].
  - rewrite Z.ltb_lt, Z.leb_le. repeat split; try tauto.
    destruct (Z.ltb_spec d (today now)), (Z.leb_spec (today now) d);
      simpl; try reflexivity; lia.
  - split; reflexivity.
Qed.

(** ** The price filters *)

Lemma min_price_selects (p : Q) (n : number) :
  greater_eq (Number p) (ONum n) =
  match n with Num q => Qle_bool q p | _ => false end.
Proof. destruct n; reflexivity. Qed.

Lemma max_price_selects (p : Q) (n : number) :
  less false (Number p) (ONum n) =
  match n with Num q => Qle_bool p q | _ => false end.
Proof. destruct n; reflexivity. Qed.

Lemma parseFloat_100 : parseFloat (Str "100") = Num (inject_Z 100).
Proof. reflexivity. Qed.

(** C8.  When the value parses to the number [q], each [minPrice]
    filter holds exactly of the releases whose price in that currency
    is at least [q] and each [maxPrice] filter exactly of those whose
    price is at most [q]; [minPriceUSD] and [maxPriceUSD] at 100
    together hold exactly of the releases priced 100 USD. *)
Theorem price_bounds_inclusive (collate : ascii -> ascii -> bool)
  (v : JS.value) (q : Q) (now : Z) (r : ReleaseRow.t) :
  parseFloat v = Num q ->
  (matches collate (filterMappings.minPriceEUR v now) r = true <->
     (q <= ReleaseRow.priceEUR r)%Q)
  /\ (matches collate (filterMappings.maxPriceEUR v now) r = true <->
        (ReleaseRow.priceEUR r <= q)%Q)
  /\ (matches collate (filterMappings.minPriceGBP v now) r = true <->
        (q <= ReleaseRow.priceGBP r)%Q)
  /\ (matches collate (filterMappings.maxPriceGBP v now) r = true <->
        (ReleaseRow.priceGBP r <= q)%Q)
  /\ (matches collate (filterMappings.minPriceUSD v now) r = true <->
        (q <= ReleaseRow.priceUSD r)%Q)
  /\ (matches collate (filterMappings.maxPriceUSD v now) r = true <->
        (ReleaseRow.priceUSD r <= q)%Q)
  /\ (matches collate (filterMappings.minPriceUSD (Str "100") now) r = true /\
      matches collate (filterMappings.maxPriceUSD (Str "100") now) r = true <->
        (ReleaseRow.priceUSD r == 100)%Q).
Proof.
  intros Hv.
  assert (H100 : parseFloat (Str "100") = Num (inject_Z 100)) by reflexivity.
  repeat match goal with |- _ /\ _ => split end;
    try (unfold matches; cbn -[parseFloat greater_eq less];
         rewrite ?min_price_selects, ?max_price_selects, Hv;
         apply Qle_bool_iff).
  unfold matches; cbn -[parseFloat greater_eq less].
  rewrite min_price_selects, max_price_selects, H100, !Qle_bool_iff.
  split.
  - intros [H1 H2]. apply Qle_antisym; assumption.
  - intros E. rewrite E. split; apply Qle_refl.
Qed.

Lemma price_bounds_inclusive_witness :
  parseFloat (Str "100") = Num (inject_Z 100) /\
  matches binary (filterMappings.minPriceEUR (Str "100") 0) air_maximus = true /\
  matches binary (filterMappings.maxPriceEUR (Str "100") 0) air_maximus = true /\
  matches binary (filterMappings.maxPriceUSD (Str "100") 0) air_maximus = false.
Proof.
  pose proof (price_bounds_inclusive binary (Str "100") (inject_Z 100) 0
                air_maximus eq_refl) as (H1 & H2 & _ & _ & _ & H6 & _).
  split; [reflexivity|]. split; [|split].
  - apply H1. discriminate.
  - apply H2. discriminate.
  - apply not_true_is_false. intros E. apply H6 in E. apply E. reflexivity.
Defined.

(** ** Malformed numbers and dates *)

Lemma parseFloat_string_no_numeral (s : string) :
  no_numeric_prefix s = true -> parseFloat_string s = NaN.
Proof.
  unfold no_numeric_prefix, parseFloat_string.
  destruct (read_sign (trim_start s)) as [neg body]. simpl snd.
  intros H. apply andb_true_iff in H as [Hinf H].
  apply negb_true_iff in Hinf. rewrite Hinf.
  destruct body as [|c rest]; [reflexivity|].
  simpl span_digits. destruct (digit c) eqn:Hd; [discriminate|].
  apply negb_true_iff in H. rewrite H. reflexivity.
Qed.

(** C4, as the code has it.  The price and date filters return a
    fragment for every value and raise nothing: the bound of a price
    filter is [parseFloat(value)], which is [NaN] when the value does
    not start with a numeral, and the bound of a date filter is
    [moment.utc(value)], an invalid date when the value does not
    parse. *)
Theorem malformed_values_are_coerced (moment_utc : JS.value -> Z -> option Z)
  (v : JS.value) (now : Z) :
  filterMappings.minPriceEUR v now =
    Ok (Fragment (Attr "priceEUR" (Cmp gte (ONum (parseFloat v)))) None)
  /\ filterMappings.maxPriceEUR v now =
    Ok (Fragment (Attr "priceEUR" (Cmp lte (ONum (parseFloat v)))) None)
  /\ filterMappings.minPriceGBP v now =
    Ok (Fragment (Attr "priceGBP" (Cmp gte (ONum (parseFloat v)))) None)
  /\ filterMappings.maxPriceGBP v now =
    Ok (Fragment (Attr "priceGBP" (Cmp lte (ONum (parseFloat v)))) None)
  /\ filterMappings.minPriceUSD v now =
    Ok (Fragment (Attr "priceUSD" (Cmp gte (ONum (parseFloat v)))) None)
  /\ filterMappings.maxPriceUSD v now =
    Ok (Fragment (Attr "priceUSD" (Cmp lte (ONum (parseFloat v)))) None)
  /\ filterMappings.fromDate moment_utc v now =
    Ok (Fragment (Attr "releaseDate" (Cmp gte (ODate (moment_utc v now)))) None)
  /\ filterMappings.toDate moment_utc v now =
    Ok (Fragment (Attr "releaseDate" (Cmp lte (ODate (moment_utc v now)))) None)
  /\ (no_numeric_prefix (ToString v) = true -> parseFloat v = NaN).
Proof.
  repeat (split; [reflexivity|]).
  apply parseFloat_string_no_numeral.
Qed.

Lemma malformed_values_are_coerced_witness :
  no_numeric_prefix (ToString (Str "abc")) = true /\
  filterMappings.minPriceUSD (Str "abc") 0 =
    Ok (Fragment (Attr "priceUSD" (Cmp gte (ONum NaN))) None).
Proof.
  split; [reflexivity|].
  destruct (malformed_values_are_coerced (fun _ _ => None) (Str "abc") 0)
    as (_ & _ & _ & _ & H & _ & _ & _ & Hnan).
  rewrite <- (Hnan eq_refl). exact H.
Defined.

(** C4 as stated fails: a price that is no number raises nothing, and
    becomes the bound [NaN] of a predicate. *)
Lemma validation_claim_counterexample :
  filterMappings.minPriceUSD (Str "abc") 0 =
    Ok (Fragment (Attr "priceUSD" (Cmp gte (ONum NaN))) None)
  /\ forall e, filterMappings.minPriceUSD (Str "abc") 0 <> Throw e.
Proof. split; [reflexivity | discriminate]. Qed.

(** ** Purity of the registry *)

Lemma get_In (moment_utc : JS.value -> Z -> option Z) (key : string)
  (f : JS.value -> Eval fragment) :
  filterMappings.get moment_utc key = Some f ->
  In (key, f) (filterMappings.entries moment_utc).
Proof.
  unfold filterMappings.get. intros H.
  destruct (find _ _) as [[k g]|] eqn:E; [|discriminate].
  apply find_some in E as [Hin Hk]. simpl in Hk, H.
  apply String.eqb_eq in Hk. injection H as <-. subst k. exact Hin.
Qed.

Lemma outdated_returns (v : JS.value) (now : Z) :
  filterMappings.outdated v now =
  Ok (Fragment (Attr "releaseDate"
                  (And [Cmp lt (ODate (Some (today now))); Cmp ne ONull]))
               None).
Proof. reflexivity. Qed.

Lemma coming_returns (v : JS.value) (now : Z) :
  filterMappings.coming v now =
  Ok (Fragment (Attr "releaseDate"
                  (And [Cmp gte (ODate (Some (today now))); Cmp ne ONull]))
               None).
Proof. reflexivity. Qed.

Ltac clock_free v :=
  first [ reflexivity
        | destruct v; reflexivity
        | unfold filterMappings.upcoming;
          destruct (is_zero (parseInt v)); reflexivity ].

Ltac each_entry H :=
  simpl in H;
  repeat (destruct H as [H|H]; [injection H as <- <- |]);
  try contradiction.

Lemma fromDate_returns (moment_utc : JS.value -> Z -> option Z)
  (v : JS.value) (now : Z) :
  filterMappings.fromDate moment_utc v now =
  Ok (Fragment (Attr "releaseDate" (Cmp gte (ODate (moment_utc v now)))) None).
Proof. reflexivity. Qed.

Lemma toDate_returns (moment_utc : JS.value -> Z -> option Z)
  (v : JS.value) (now : Z) :
  filterMappings.toDate moment_utc v now =
  Ok (Fragment (Attr "releaseDate" (Cmp lte (ODate (moment_utc v now)))) None).
Proof. reflexivity. Qed.

(** Two calls return the same when the clock shows the same day and
    [moment.utc] reads the same instant from the value at both. *)
Lemma entries_same_readings (moment_utc : JS.value -> Z -> option Z)
  (key : string) (f : JS.value -> Eval fragment) (v : JS.value) (now1 now2 : Z) :
  In (key, f) (filterMappings.entries moment_utc) ->
  (key = "outdated" \/ key = "coming" -> today now1 = today now2) ->
  (key = "fromDate" \/ key = "toDate" ->
   moment_utc v now1 = moment_utc v now2) ->
  f v now1 = f v now2.
Proof.
  intros H Hd Hm. each_entry H;
    try (rewrite ?outdated_returns, ?coming_returns, Hd by auto; reflexivity);
    try (rewrite ?fromDate_returns, ?toDate_returns, Hm by auto; reflexivity);
    clock_free v.
Qed.

Lemma entries_same_target (moment_utc : JS.value -> Z -> option Z)
  (key : string) (f : JS.value -> Eval fragment) (v : JS.value) (now1 now2 : Z)
  (c1 c2 : fragment) :
  In (key, f) (filterMappings.entries moment_utc) ->
  f v now1 = Ok c1 -> f v now2 = Ok c2 -> target c1 = target c2.
Proof.
  intros H E1 E2. each_entry H;
    try rewrite outdated_returns in E1, E2;
    try rewrite coming_returns in E1, E2;
    try rewrite fromDate_returns in E1, E2;
    try rewrite toDate_returns in E1, E2;
    unfold filterMappings.upcoming in *;
    try destruct (is_zero (parseInt v));
    destruct v;
    cbn -[parseFloat today] in E1, E2;
    try discriminate;
    injection E1 as <-; injection E2 as <-; reflexivity.
Qed.

(** C9, as the code has it.  The result of a filter function is
    determined by the raw value and by what the function reads off the
    clock.  All functions but [outdated], [coming], [fromDate] and
    [toDate] return the same at any two readings of the clock;
    [outdated] and [coming] return the same at two readings within one
    UTC day; [fromDate] and [toDate] return the same at two readings at
    which [moment.utc] reads the same instant from the value; and the
    target entity of the fragment never depends on the clock. *)
Theorem filters_depend_on_value_and_day (moment_utc : JS.value -> Z -> option Z)
  (key : string) (f : JS.value -> Eval fragment) (v : JS.value) (now1 now2 : Z) :
  filterMappings.get moment_utc key = Some f ->
  (key <> "outdated" -> key <> "coming" ->
   key <> "fromDate" -> key <> "toDate" -> f v now1 = f v now2)
  /\ (key = "outdated" \/ key = "coming" ->
      today now1 = today now2 -> f v now1 = f v now2)
  /\ (key = "fromDate" \/ key = "toDate" ->
      moment_utc v now1 = moment_utc v now2 -> f v now1 = f v now2)
  /\ (forall c1 c2, f v now1 = Ok c1 -> f v now2 = Ok c2 -> target c1 = target c2).
Proof.
  intros H. apply get_In in H. split; [|split; [|split]].
  - intros Ho Hc Hf Ht.
    apply (entries_same_readings moment_utc key); try assumption;
      intros [E|E]; contradiction.
  - intros Hk Hd.
    apply (entries_same_readings moment_utc key); try assumption; [tauto|].
    intros [E|E]; destruct Hk as [Hk|Hk]; rewrite E in Hk; discriminate.
  - intros Hk Hm.
    apply (entries_same_readings moment_utc key); try assumption; [|tauto].
    intros [E|E]; destruct Hk as [Hk|Hk]; rewrite E in Hk; discriminate.
  - intros c1 c2. apply (entries_same_target moment_utc key); assumption.
Qed.

Lemma filters_depend_on_value_and_day_witness :
  filterMappings.get moment_of_empty "outdated" = Some filterMappings.outdated /\
  today 1000 = today 2000 /\
  filterMappings.outdated (Str "1") 1000 = filterMappings.outdated (Str "1") 2000 /\
  filterMappings.get moment_of_empty "fromDate" =
    Some (filterMappings.fromDate moment_of_empty) /\
  moment_of_empty (Str "2020-01-01") 1000 = moment_of_empty (Str "2020-01-01") 2000 /\
  filterMappings.fromDate moment_of_empty (Str "2020-01-01") 1000 =
  filterMappings.fromDate moment_of_empty (Str "2020-01-01") 2000.
Proof.
  split; [reflexivity|]. split; [reflexivity|]. split.
  - apply (proj1 (proj2 (filters_depend_on_value_and_day moment_of_empty
                           "outdated" filterMappings.outdated (Str "1")
                           1000 2000 eq_refl)));
      [left; reflexivity | reflexivity].
  - split; [reflexivity|]. split; [reflexivity|].
    apply (proj1 (proj2 (proj2 (filters_depend_on_value_and_day moment_of_empty
                                  "fromDate"
                                  (filterMappings.fromDate moment_of_empty)
                                  (Str "2020-01-01") 1000 2000 eq_refl))));
      [left; reflexivity | reflexivity].
Defined.

(** C9 as stated fails: [outdated] reads the clock, and returns
    different fragments on different days; and [fromDate] on an empty
    array, which [moment.utc] reads as the current instant, returns
    different fragments at two instants of one day. *)
Lemma purity_claim_counterexample :
  filterMappings.get moment_of_empty "outdated" = Some filterMappings.outdated /\
  filterMappings.outdated (Str "1") 0 <>
  filterMappings.outdated (Str "1") ms_per_day /\
  filterMappings.get moment_of_empty "fromDate" =
    Some (filterMappings.fromDate moment_of_empty) /\
  today 1000 = today 2000 /\
  filterMappings.fromDate moment_of_empty (Arr []) 1000 <>
  filterMappings.fromDate moment_of_empty (Arr []) 2000.
Proof.
  split; [reflexivity|]. split; [discriminate|].
  split; [reflexivity|]. split; [reflexivity | discriminate].
Qed.

(** ** Looking a release up by its key *)

Lemma selected_where_id (collate : ascii -> ascii -> bool)
  (rid : Z) (r : ReleaseRow.t) :
  ReleaseModel.selected collate (where_id rid) r = (ReleaseRow.id r =? rid).
Proof.
  unfold ReleaseModel.selected, where_id. cbn.
  unfold Qeq_bool. simpl. rewrite !Z.mul_1_r. reflexivity.
Qed.

Lemma find_where_id_none (collate : ascii -> ascii -> bool)
  (rid : Z) (l : list ReleaseRow.t) :
  (forall r, In r l -> ReleaseRow.id r <> rid) ->
  find (ReleaseModel.selected collate (where_id rid)) l = None.
Proof.
  induction l as [|r l IH]; intros H; cbn [find]; [reflexivity|].
  rewrite selected_where_id.
  destruct (Z.eqb_spec (ReleaseRow.id r) rid) as [E|_].
  - exfalso. apply (H r); [left; reflexivity | exact E].
  - apply IH. intros r' Hr'. apply H. right. exact Hr'.
Qed.

Lemma find_where_id_some (collate : ascii -> ascii -> bool)
  (rid : Z) (l : list ReleaseRow.t) :
  (exists r, In r l /\ ReleaseRow.id r = rid) ->
  exists release,
    find (ReleaseModel.selected collate (where_id rid)) l = Some release /\
    ReleaseRow.id release = rid.
Proof.
  induction l as [|r l IH]; intros (x & Hin & Hx); [destruct Hin|].
  cbn [find]. rewrite selected_where_id.
  destruct (Z.eqb_spec (ReleaseRow.id r) rid) as [E|N].
  - exists r. auto.
  - apply IH. destruct Hin as [->|Hin]; [contradiction|]. exists x. auto.
Qed.

(** ** Creating images *)

Lemma build_length (next : Z) (images : list string) :
  List.length (ImageModel.build next images) = List.length images.
Proof.
  revert next. induction images as [|i l IH]; intros next; simpl;
    [|rewrite IH]; reflexivity.
Qed.

Lemma build_images (next : Z) (images : list string) :
  map ImageRow.image (ImageModel.build next images) = images.
Proof.
  revert next. induction images as [|i l IH]; intros next; simpl;
    [|rewrite IH]; reflexivity.
Qed.

Lemma build_keys (next : Z) (images : list string) (i : ImageRow.t) :
  In i (ImageModel.build next images) -> next <= ImageRow.id i.
Proof.
  revert next. induction images as [|x l IH]; intros next; simpl.
  - intros [].
  - intros [<-|H]; simpl; [lia|]. apply IH in H. lia.
Qed.

Lemma has_id_In (ids : list Z) (i : ImageRow.t) :
  ImageModel.has_id ids i = true <-> In (ImageRow.id i) ids.
Proof.
  unfold ImageModel.has_id. rewrite existsb_exists. split.
  - intros (x & Hx & E). apply Z.eqb_eq in E. subst. exact Hx.
  - intros H. exists (ImageRow.id i). split; [exact H | apply Z.eqb_refl].
Qed.

(** The update of [addImages] reaches the created rows and no older
    row, since the older rows are keyed below them. *)
Lemma associate_created (owner : Z) (d : database) (images : list string) :
  keys_fresh d ->
  let created := ImageModel.build (next_image_id d) images in
  map (fun i => if ImageModel.has_id (map ImageRow.id created) i
                then ImageModel.set_releaseId owner i else i)
      (images_table d ++ created)%list
  = (images_table d ++ map (ImageModel.set_releaseId owner) created)%list.
Proof.
  intros Hf created. rewrite map_app. f_equal.
  - rewrite <- (map_id (images_table d)) at 2.
    apply map_ext_in. intros i Hi.
    destruct (ImageModel.has_id _ i) eqn:E; [|reflexivity].
    apply has_id_In, in_map_iff in E as (j & Ej & Hj).
    apply build_keys in Hj.
    unfold keys_fresh in Hf. rewrite Forall_forall in Hf.
    specialize (Hf i Hi). lia.
  - apply map_ext_in. intros i Hi.
    replace (ImageModel.has_id _ i) with true; [reflexivity|].
    symmetry. apply has_id_In, in_map. exact Hi.
Qed.

(** C5.  When no release has the given id, [createImages] fails with
    [EntityNotFound] and leaves the database as it was; when a release
    has it (and image keys are handed out fresh), it appends one image
    row per given record, each with the given record as its image and
    the id of that release as its [releaseId], changes nothing else,
    and returns the rows it created. *)
Theorem createImages_inserts_or_rejects (collate : ascii -> ascii -> bool)
  (rid : Z) (images : list string) (now : Z) (d : database) :
  ((forall r, In r (releases_table d) -> ReleaseRow.id r <> rid) ->
   createImages collate rid images now d = (Throw EntityNotFound, d))
  /\
  ((exists r, In r (releases_table d) /\ ReleaseRow.id r = rid) ->
   keys_fresh d ->
   exists created,
     createImages collate rid images now d =
       (Ok created,
        {| releases_table := releases_table d;
           images_table :=
             (images_table d ++
              map (fun i => ImageRow.make (ImageRow.id i) (Some rid)
                                          (ImageRow.image i))
                  created)%list;
           next_image_id := next_image_id d + Z.of_nat (List.length images) |})
     /\ map ImageRow.image created = images
     /\ List.length created = List.length images
     /\ Forall (fun i => ~ In (ImageRow.id i) (map ImageRow.id (images_table d)))
               created
     /\ (forall i,
           In i (images_table (snd (createImages collate rid images now d))) ->
           In (ImageRow.id i) (map ImageRow.id created) ->
           ImageRow.releaseId i = Some rid)).
Proof.
  split.
  - intros H. unfold createImages, ReleaseModel.findOne. cbn.
    rewrite (find_where_id_none collate rid _ H). reflexivity.
  - intros H Hf.
    destruct (find_where_id_some collate rid _ H) as (release & E & Hid).
    exists (ImageModel.build (next_image_id d) images).
    assert (G : createImages collate rid images now d =
      (Ok (ImageModel.build (next_image_id d) images),
       {| releases_table := releases_table d;
          images_table :=
            (images_table d ++
             map (fun i => ImageRow.make (ImageRow.id i) (Some rid)
                                         (ImageRow.image i))
                 (ImageModel.build (next_image_id d) images))%list;
          next_image_id := next_image_id d + Z.of_nat (List.length images) |})).
    { unfold createImages, ReleaseModel.findOne. cbn. rewrite E. cbn.
      rewrite Hid. f_equal. f_equal.
      apply (associate_created rid d images Hf). }
    assert (Hnew : Forall (fun i => ~ In (ImageRow.id i)
                                        (map ImageRow.id (images_table d)))
                          (ImageModel.build (next_image_id d) images)).
    { apply Forall_forall. intros i Hi Hin.
      apply build_keys in Hi. apply in_map_iff in Hin as (j & Ej & Hj).
      unfold keys_fresh in Hf. rewrite Forall_forall in Hf.
      specialize (Hf j Hj). lia. }
    split; [exact G|].
    split; [apply build_images|]. split; [apply build_length|].
    split; [exact Hnew|].
    intros i Hi Hk. rewrite G in Hi. cbn [snd images_table] in Hi.
    apply in_app_or in Hi as [Hi|Hi].
    + exfalso. apply in_map_iff in Hk as (j & Ej & Hj).
      rewrite Forall_forall in Hnew. apply (Hnew j Hj).
      rewrite Ej. apply in_map. exact Hi.
    + apply in_map_iff in Hi as (j & <- & Hj). reflexivity.
Qed.

Lemma createImages_inserts_or_rejects_witness :
  (forall r, In r (releases_table store) -> ReleaseRow.id r <> 7) /\
  createImages binary 7 ["x.png"] 0 store = (Throw EntityNotFound, store) /\
  (exists r, In r (releases_table store) /\ ReleaseRow.id r = 1) /\
  keys_fresh store /\
  fst (createImages binary 1 ["x.png"; "y.png"] 0 store) =
    Ok [ImageRow.make 3 None "x.png"; ImageRow.make 4 None "y.png"] /\
  images_table (snd (createImages binary 1 ["x.png"; "y.png"] 0 store)) =
    [ImageRow.make 1 (Some 1) "a.png"; ImageRow.make 2 None "b.png";
     ImageRow.make 3 (Some 1) "x.png"; ImageRow.make 4 (Some 1) "y.png"].
Proof.
  assert (H7 : forall r, In r (releases_table store) -> ReleaseRow.id r <> 7).
  { intros r [<-|[<-|[<-|[]]]]; discriminate. }
  assert (H1 : exists r, In r (releases_table store) /\ ReleaseRow.id r = 1).
  { exists (sample_release 1 "AJ1-red"). split; [left|]; reflexivity. }
  assert (Hf : keys_fresh store).
  { unfold keys_fresh. simpl. repeat constructor. }
  split; [exact H7|]. split.
  - apply (proj1 (createImages_inserts_or_rejects binary 7 ["x.png"] 0 store)).
    exact H7.
  - split; [exact H1|]. split; [exact Hf|].
    destruct (proj2 (createImages_inserts_or_rejects binary 1
                       ["x.png"; "y.png"] 0 store) H1 Hf)
      as (created & E & Himg & _).
    assert (Ec : created =
                 [ImageRow.make 3 None "x.png"; ImageRow.make 4 None "y.png"]).
    { pose proof E as E'. vm_compute in E'. injection E' as E' _.
      symmetry. exact E'. }
    rewrite E. cbn [fst snd images_table]. rewrite Ec.
    split; reflexivity.
Defined.

(** ** Reading the images of a release *)

Lemma filter_owned_none (owner : Z) (l : list ImageRow.t) :
  (forall i, In i l -> ImageRow.releaseId i <> Some owner) ->
  List.filter (ImageModel.owned_by owner) l = [].
Proof.
  induction l as [|i l IH]; intros H; [reflexivity|].
  simpl. unfold ImageModel.owned_by at 1.
  destruct (ImageRow.releaseId i) as [o|] eqn:Eo.
  - destruct (Z.eqb_spec o owner) as [->|_].
    + exfalso. apply (H i); [left; reflexivity | exact Eo].
    + apply IH. intros j Hj. apply H. right. exact Hj.
  - apply IH. intros j Hj. apply H. right. exact Hj.
Qed.

(** C6.  [getAllImages] fails with [EntityNotFound] when no release has
    the given id; otherwise it returns the converted images owned by
    that release, in table order, and the empty list when the release
    owns none; the database is left as it was. *)
Theorem getAllImages_converts_or_rejects (collate : ascii -> ascii -> bool)
  (DomainImage : Type) (ReleaseImage : ImageRow.t -> DomainImage)
  (rid : Z) (now : Z) (d : database) :
  ((forall r, In r (releases_table d) -> ReleaseRow.id r <> rid) ->
   getAllImages collate ReleaseImage rid now d = (Throw EntityNotFound, d))
  /\
  ((exists r, In r (releases_table d) /\ ReleaseRow.id r = rid) ->
   getAllImages collate ReleaseImage rid now d =
     (Ok (map ReleaseImage
            (List.filter (fun i => match ImageRow.releaseId i with
                                   | Some owner => owner =? rid
                                   | None => false
                                   end)
                         (images_table d))), d)
   /\ ((forall i, In i (images_table d) -> ImageRow.releaseId i <> Some rid) ->
       getAllImages collate ReleaseImage rid now d = (Ok [], d))).
Proof.
  split.
  - intros H. unfold getAllImages, ReleaseModel.findOne. cbn.
    rewrite (find_where_id_none collate rid _ H). reflexivity.
  - intros H.
    destruct (find_where_id_some collate rid _ H) as (release & E & Hid).
    assert (G : getAllImages collate ReleaseImage rid now d =
                (Ok (map ReleaseImage
                       (List.filter (ImageModel.owned_by rid) (images_table d))), d)).
    { unfold getAllImages, ReleaseModel.findOne. cbn. rewrite E. cbn.
      rewrite Hid. reflexivity. }
    split; [exact G|].
    intros Hnone. rewrite G.
    rewrite (filter_owned_none rid _ Hnone). reflexivity.
Qed.

Lemma getAllImages_converts_or_rejects_witness :
  (forall r, In r (releases_table store) -> ReleaseRow.id r <> 7) /\
  getAllImages binary ImageRow.image 7 0 store = (Throw EntityNotFound, store) /\
  (exists r, In r (releases_table store) /\ ReleaseRow.id r = 1) /\
  getAllImages binary ImageRow.image 1 0 store = (Ok ["a.png"], store) /\
  (exists r, In r (releases_table store) /\ ReleaseRow.id r = 2) /\
  (forall i, In i (images_table store) -> ImageRow.releaseId i <> Some 2) /\
  getAllImages binary ImageRow.image 2 0 store = (Ok [], store).
Proof.
  assert (H7 : forall r, In r (releases_table store) -> ReleaseRow.id r <> 7).
  { intros r [<-|[<-|[<-|[]]]]; discriminate. }
  assert (H1 : exists r, In r (releases_table store) /\ ReleaseRow.id r = 1).
  { exists (sample_release 1 "AJ1-red"). split; [left|]; reflexivity. }
  assert (H2 : exists r, In r (releases_table store) /\ ReleaseRow.id r = 2).
  { exists (sample_release 2 "AJ1-blue"). split; [right; left|]; reflexivity. }
  assert (Hn : forall i, In i (images_table store) ->
                         ImageRow.releaseId i <> Some 2).
  { intros i [<-|[<-|[]]]; discriminate. }
  split; [exact H7|]. split.
  { apply (proj1 (getAllImages_converts_or_rejects binary string
                    ImageRow.image 7 0 store)). exact H7. }
  split; [exact H1|]. split.
  { apply (proj1 (proj2 (getAllImages_converts_or_rejects binary string
                           ImageRow.image 1 0 store) H1)). }
  split; [exact H2|]. split; [exact Hn|].
  apply (proj2 (proj2 (getAllImages_converts_or_rejects binary string
                         ImageRow.image 2 0 store) H2)). exact Hn.
Defined.

(** ** Counting releases by slug *)

Lemma like_slug_selects (collate : ascii -> ascii -> bool)
  (pattern : string) (r : ReleaseRow.t) :
  ReleaseModel.selected collate (Attr "slug" (Cmp like (OStr pattern))) r =
  like_match collate pattern (ReleaseRow.slug r).
Proof. reflexivity. Qed.

(** C7, as the code has it.  For a prefix holding no [LIKE] wildcard,
    [countLikeReleases] returns the number of releases whose slug
    starts with the prefix (characters compared under the collation of
    the backend), 0 when there is none, and never fails. *)
Theorem countLikeReleases_counts_prefix (collate : ascii -> ascii -> bool)
  (slug : string) (now : Z) (d : database) :
  wildcard_free slug = true ->
  countLikeReleases collate slug now d =
    (Ok (List.length
           (List.filter (fun r => starts_with collate slug (ReleaseRow.slug r))
                        (releases_table d))), d)
  /\ (forall r, starts_with collate slug (ReleaseRow.slug r) = true <->
                Prefix collate slug (ReleaseRow.slug r))
  /\ ((forall r, In r (releases_table d) ->
                 ~ Prefix collate slug (ReleaseRow.slug r)) ->
      countLikeReleases collate slug now d = (Ok 0%nat, d)).
Proof.
  intros Hs.
  assert (G : countLikeReleases collate slug now d =
    (Ok (List.length
           (List.filter (fun r => starts_with collate slug (ReleaseRow.slug r))
                        (releases_table d))), d)).
  { unfold countLikeReleases, ReleaseModel.findAll. cbn.
    do 3 f_equal. apply filter_ext. intros r.
    rewrite like_slug_selects. apply like_prefix. exact Hs. }
  split; [exact G|]. split.
  - intros r. apply starts_with_Prefix.
  - intros Hnone. rewrite G. do 2 f_equal.
    induction (releases_table d) as [|r l IH] in Hnone |- *; [reflexivity|].
    simpl. destruct (starts_with collate slug (ReleaseRow.slug r)) eqn:E.
    + exfalso. apply (Hnone r); [left; reflexivity|].
      apply starts_with_Prefix. exact E.
    + apply IH. intros r' Hr'. apply Hnone. right. exact Hr'.
Qed.

Lemma countLikeReleases_counts_prefix_witness :
  wildcard_free "AJ1" = true /\
  countLikeReleases binary "AJ1" 0 store = (Ok 2%nat, store).
Proof.
  split; [reflexivity|].
  rewrite (proj1 (countLikeReleases_counts_prefix binary "AJ1" 0 store eq_refl)).
  reflexivity.
Defined.

(** C7 as stated fails on a prefix that holds a wildcard: no slug of
    the store starts with ["AJ_"], and the count is 3. *)
Lemma prefix_claim_counterexample :
  countLikeReleases binary "AJ_" 0 store = (Ok 3%nat, store) /\
  List.filter (fun r => starts_with binary "AJ_" (ReleaseRow.slug r))
              (releases_table store) = [] /\
  List.filter (fun r => String.prefix "AJ_" (ReleaseRow.slug r))
              (releases_table store) = [].
Proof. repeat split. Qed.

(** ** Hiding a release from the dashboard *)

(** C10, as the code has it.  [setHiddenDashboard] rewrites the rows of
    [releases] whose id is the given one: their [hiddenDashboard]
    becomes the flag and, when the model keeps timestamps, their
    [updatedAt] becomes the time of the call.  Every other column of
    these rows, every other row, and the images are as before. *)
Theorem setHiddenDashboard_frame (collate : ascii -> ascii -> bool)
  (timestamps : bool) (rid : Z) (flag : bool) (now : Z) (d : database) :
  setHiddenDashboard collate timestamps rid flag now d =
    (Ok [List.length
           (List.filter (fun r => ReleaseRow.id r =? rid) (releases_table d))],
     {| releases_table :=
          map (fun r =>
                 ReleaseRow.make
                   (ReleaseRow.id r) (ReleaseRow.slug r) (ReleaseRow.name r)
                   (ReleaseRow.sku r) (ReleaseRow.gender r) (ReleaseRow.color r)
                   (ReleaseRow.releaseDate r) (ReleaseRow.priceEUR r)
                   (ReleaseRow.priceGBP r) (ReleaseRow.priceUSD r)
                   (if ReleaseRow.id r =? rid then flag
                    else ReleaseRow.hiddenDashboard r)
                   (if (ReleaseRow.id r =? rid) && timestamps then now
                    else ReleaseRow.updatedAt r))
              (releases_table d);
        images_table := images_table d;
        next_image_id := next_image_id d |}).
Proof.
  unfold setHiddenDashboard, ReleaseModel.update. f_equal.
  - do 3 f_equal. apply filter_ext. intros r. apply selected_where_id.
  - f_equal. apply map_ext. intros r. rewrite selected_where_id.
    destruct r, (_ =? rid), timestamps; reflexivity.
Qed.

(** C10 as stated fails when the model keeps timestamps: the call also
    rewrites [updatedAt] of the release it reaches. *)
Lemma frame_claim_counterexample :
  map ReleaseRow.updatedAt (releases_table store) = [0; 0; 0] /\
  map ReleaseRow.updatedAt
      (releases_table (snd (setHiddenDashboard binary true 1 true 9 store)))
  = [9; 0; 0].
Proof. split; reflexivity. Qed.

(** ** The remaining facade operations, and the builtins on examples *)

(** [destroyImage] on an id no image has deletes nothing. *)
Lemma destroyImage_absent (id : Z) (now : Z) (d : database) :
  (forall i, In i (images_table d) -> ImageRow.id i <> id) ->
  destroyImage id now d = (Ok 0%nat, d).
Proof.
  intros H. unfold destroyImage, ImageModel.destroy.
  assert (Keep : List.filter (fun i => negb (ImageRow.id i =? id)) (images_table d)
                 = images_table d).
  { induction (images_table d) as [|i l IH] in H |- *; [reflexivity|].
    simpl. destruct (Z.eqb_spec (ImageRow.id i) id) as [E|_].
    - exfalso. apply (H i); [left; reflexivity | exact E].
    - simpl. f_equal. apply IH. intros j Hj. apply H. right. exact Hj. }
  assert (Gone : List.filter (fun i => ImageRow.id i =? id) (images_table d) = []).
  { induction (images_table d) as [|i l IH] in H |- *; [reflexivity|].
    simpl. destruct (Z.eqb_spec (ImageRow.id i) id) as [E|_].
    - exfalso. apply (H i); [left; reflexivity | exact E].
    - apply IH. intros j Hj. apply H. right. exact Hj. }
  rewrite Keep, Gone. destruct d; reflexivity.
Qed.

(** [modifyUpdatedAt] writes the given time, whatever the model does
    with timestamps. *)
Lemma modifyUpdatedAt_writes (id updatedAt : Z) (now : Z) (d : database) :
  map ReleaseRow.updatedAt
      (releases_table (snd (modifyUpdatedAt id updatedAt now d))) =
  map (fun r => if ReleaseRow.id r =? id then updatedAt
                else ReleaseRow.updatedAt r)
      (releases_table d).
Proof.
  unfold modifyUpdatedAt, ReleaseModel.raw_update_updatedAt. simpl.
  rewrite map_map. apply map_ext. intros r.
  destruct r, (_ =? id); reflexivity.
Qed.

Example split_spaces_words : split_spaces "air max" = ["air"; "max"].
Proof. reflexivity. Qed.

Example split_spaces_runs :
  split_spaces " air   max " = [""; "air"; "max"; ""].
Proof. reflexivity. Qed.

Example split_spaces_empty : split_spaces "" = [""].
Proof. reflexivity. Qed.

Example parseFloat_prefix :
  parseFloat (Str " -12.50e1xyz") = Num (inject_Z (-125)).
Proof. reflexivity. Qed.

Example parseFloat_array : parseFloat (Arr ["7"; "8"]) = Num (inject_Z 7).
Proof. reflexivity. Qed.

Example parseFloat_infinity : parseFloat (Str "-Infinity") = Infinity true.
Proof. reflexivity. Qed.

Example parseInt_hex : parseInt (Str "0x1f") = Num (inject_Z 31).
Proof. reflexivity. Qed.

Example upcoming_zero :
  filterMappings.upcoming (Str "0") 0 =
  Ok (Fragment (Attr "releaseDate" (Cmp ne ONull)) None).
Proof. reflexivity. Qed.

Example query_on_array : filterMappings.query (Arr ["air"]) 0 = Throw TypeError.
Proof. reflexivity. Qed.

Example like_ignores_case :
  like_match case_insensitive "%max%" "Air Maximus" = true /\
  like_match binary "%max%" "Air Maximus" = false.
Proof. split; reflexivity. Qed.

Example unknown_key : filterMappings.get (fun _ _ => None) "page" = None.
Proof. reflexivity. Qed.

(** * Further facts about the registry *)

(** ** The [upcoming] filter *)

Lemma upcoming_selects (collate : ascii -> ascii -> bool)
  (v : JS.value) (now : Z) (r : ReleaseRow.t) :
  matches collate (filterMappings.upcoming v now) r =
  if is_zero (parseInt v)
  then match ReleaseRow.releaseDate r with Some _ => true | None => false end
  else match ReleaseRow.releaseDate r with Some _ => false | None => true end.
Proof.
  unfold matches, filterMappings.upcoming.
  destruct (is_zero (parseInt v)); cbn;
    destruct (ReleaseRow.releaseDate r); reflexivity.
Qed.

(** X1.  A value that [parseInt] reads as zero makes [upcoming] hold of
    the releases that have a release date; every other value, one that
    is no number included, makes it hold of the releases that have
    none. *)
Theorem upcoming_dated_or_undated (collate : ascii -> ascii -> bool)
  (v : JS.value) (now : Z) (r : ReleaseRow.t) :
  (is_zero (parseInt v) = true ->
   (matches collate (filterMappings.upcoming v now) r = true <->
    ReleaseRow.releaseDate r <> None))
  /\ (is_zero (parseInt v) = false ->
      (matches collate (filterMappings.upcoming v now) r = true <->
       ReleaseRow.releaseDate r = None))
  /\ (parseInt v = NaN ->
      (matches collate (filterMappings.upcoming v now) r = true <->
       ReleaseRow.releaseDate r = None)).
Proof.
  rewrite upcoming_selects.
  assert (Z0 : is_zero (parseInt v) = false ->
               ((if is_zero (parseInt v)
                 then match ReleaseRow.releaseDate r with
                      | Some _ => true | None => false end
                 else match ReleaseRow.releaseDate r with
                      | Some _ => false | None => true end) = true <->
                ReleaseRow.releaseDate r = None)).
  { intros ->. destruct (ReleaseRow.releaseDate r);
      split; congruence. }
  split; [|split].
  - intros ->. destruct (ReleaseRow.releaseDate r); split; congruence.
  - exact Z0.
  - intros E. apply Z0. rewrite E. reflexivity.
Qed.

Lemma upcoming_dated_or_undated_witness :
  is_zero (parseInt (Str " 0")) = true /\
  is_zero (parseInt (Str "1")) = false /\
  parseInt (Str "soon") = NaN /\
  matches binary (filterMappings.upcoming (Str " 0") 0) air_maximus = false /\
  matches binary (filterMappings.upcoming (Str "1") 0) air_maximus = true /\
  matches binary (filterMappings.upcoming (Str "soon") 0) air_maximus = true.
Proof.
  split; [reflexivity|]. split; [reflexivity|]. split; [reflexivity|].
  split; [|split].
  - apply not_true_is_false. intros E.
    apply (proj1 (upcoming_dated_or_undated binary (Str " 0") 0 air_maximus)
             eq_refl) in E.
    apply E. reflexivity.
  - apply (proj1 (proj2 (upcoming_dated_or_undated binary (Str "1") 0
                           air_maximus)) eq_refl).
    reflexivity.
  - apply (proj2 (proj2 (upcoming_dated_or_undated binary (Str "soon") 0
                           air_maximus)) eq_refl).
    reflexivity.
Defined.

(** X2.  At any reading of the clock, [upcoming] with a zero value
    holds of exactly the releases of which [outdated] or [coming]
    holds, and [upcoming] with any other value of exactly those of
    which neither holds. *)
Theorem upcoming_splits_by_outdated_coming (collate : ascii -> ascii -> bool)
  (v v1 v2 : JS.value) (now now' : Z) (r : ReleaseRow.t) :
  matches collate (filterMappings.upcoming v now') r =
  if is_zero (parseInt v)
  then matches collate (filterMappings.outdated v1 now) r ||
       matches collate (filterMappings.coming v2 now) r
  else negb (matches collate (filterMappings.outdated v1 now) r ||
             matches collate (filterMappings.coming v2 now) r).
Proof.
  rewrite upcoming_selects, outdated_selects, coming_selects.
  destruct (ReleaseRow.releaseDate r) as [d|].
  - assert (E : (d <? today now) || (today now <=? d) = true).
    { destruct (Z.ltb_spec d (today now)); [reflexivity|].
      apply Z.leb_le. assumption. }
    rewrite E. reflexivity.
  - reflexivity.
Qed.

(** ** The [color] filter *)

Lemma color_selects (collate : ascii -> ascii -> bool)
  (v : JS.value) (now : Z) (r : ReleaseRow.t) :
  requested v <> [] ->
  matches collate (filterMappings.color v now) r =
  existsb (fun c => like_match collate ("%" ++ c ++ "%") (ReleaseRow.color r))
          (requested v).
Proof.
  intros Hne. unfold matches, filterMappings.color.
  cbn -[holds map like_match append].
  rewrite holds_Or_some, existsb_map_compose.
  - destruct v; reflexivity.
  - destruct v as [s|[|c l]]; try discriminate. exfalso. apply Hne. reflexivity.
Qed.

(** X3.  For one colour or a non-empty array of colours, none holding a
    [LIKE] wildcard, [color] holds of a release exactly when one of
    them occurs in the colour of the release.  (An empty array puts no
    condition at all.) *)
Theorem color_matches_some_substring (collate : ascii -> ascii -> bool)
  (v : JS.value) (now : Z) (r : ReleaseRow.t) :
  requested v <> [] ->
  Forall (fun c => wildcard_free c = true) (requested v) ->
  (matches collate (filterMappings.color v now) r = true <->
   exists c, In c (requested v) /\ Substring collate c (ReleaseRow.color r)).
Proof.
  intros Hne Hw. rewrite color_selects by exact Hne. rewrite existsb_exists.
  rewrite Forall_forall in Hw.
  split; intros (c & Hc & H); exists c; split; try assumption.
  - rewrite like_substring in H by auto. apply contains_Substring. exact H.
  - rewrite like_substring by auto. apply contains_Substring. exact H.
Qed.

Lemma color_matches_some_substring_witness :
  requested (Arr ["blue"; "ed"]) <> [] /\
  Forall (fun c => wildcard_free c = true) (requested (Arr ["blue"; "ed"])) /\
  matches binary (filterMappings.color (Arr ["blue"; "ed"]) 0) air_maximus = true.
Proof.
  assert (Hn : requested (Arr ["blue"; "ed"]) <> []) by discriminate.
  assert (Hw : Forall (fun c => wildcard_free c = true)
                      (requested (Arr ["blue"; "ed"])))
    by (repeat constructor).
  split; [exact Hn|]. split; [exact Hw|].
  apply (color_matches_some_substring binary (Arr ["blue"; "ed"]) 0
           air_maximus Hn Hw).
  exists "ed". split; [right; left; reflexivity|].
  apply contains_Substring. reflexivity.
Defined.

(** ** The date filters *)

(** X4.  When [moment.utc] reads the instant [t] from the value,
    [fromDate] holds of the releases dated at or after [t] and [toDate]
    of those dated at or before [t], a release without a date
    satisfying neither; both together hold of the releases dated [t]
    exactly. *)
Theorem date_bounds_inclusive (collate : ascii -> ascii -> bool)
  (moment_utc : JS.value -> Z -> option Z) (v : JS.value) (t : Z) (now : Z)
  (r : ReleaseRow.t) :
  moment_utc v now = Some t ->
  (matches collate (filterMappings.fromDate moment_utc v now) r = true <->
     exists d, ReleaseRow.releaseDate r = Some d /\ t <= d)
  /\ (matches collate (filterMappings.toDate moment_utc v now) r = true <->
        exists d, ReleaseRow.releaseDate r = Some d /\ d <= t)
  /\ (matches collate (filterMappings.fromDate moment_utc v now) r = true /\
      matches collate (filterMappings.toDate moment_utc v now) r = true <->
        ReleaseRow.releaseDate r = Some t).
Proof.
  intros Hv. unfold matches. cbn. rewrite Hv.
  destruct (ReleaseRow.releaseDate r) as [d|]; cbn.
  - rewrite !Z.leb_le. repeat split.
    + intros H. exists d. auto.
    + intros (d' & E & H). injection E as <-. exact H.
    + intros H. exists d. auto.
    + intros (d' & E & H). injection E as <-. exact H.
    + intros [H1 H2]. f_equal. lia.
    + injection H as ->. lia.
    + injection H as ->. lia.
  - repeat split; try discriminate;
      try (intros (d' & E & _); discriminate).
    intros [H _]. discriminate.
Qed.

Lemma date_bounds_inclusive_witness :
  (fun (_ : JS.value) (_ : Z) => Some 5) (Str "1970-01-01T00:00:00.005Z") 0 = Some 5 /\
  matches binary
    (filterMappings.fromDate (fun _ _ => Some 5) (Str "1970-01-01T00:00:00.005Z") 0)
    air_maximus = false.
Proof.
  split; [reflexivity|].
  apply not_true_is_false. intros E.
  apply (proj1 (date_bounds_inclusive binary (fun _ _ => Some 5)
                  (Str "1970-01-01T00:00:00.005Z") 5 0 air_maximus eq_refl))
    in E.
  destruct E as (d & E & _). discriminate.
Defined.

(** ** The filters on joined models *)

Lemma or_of_values_holds (collate : ascii -> ascii -> bool)
  (v : JS.value) (x : cell) :
  requested v <> [] ->
  holds collate (filterMappings.or_of_values v) x =
  existsb (fun g => equal collate x (OStr g)) (requested v).
Proof.
  intros Hne. destruct v as [s|l]; cbn -[holds equal].
  - cbn -[equal]. rewrite orb_false_r. reflexivity.
  - rewrite holds_Or_some, existsb_map_compose; [reflexivity|].
    destruct l; [exfalso; apply Hne; reflexivity | discriminate].
Qed.

(** X5.  [brandId], [categoryId], [status] and [shipping] target the
    style, the category, the offer and the offer.  For one value or a
    non-empty array of values, they hold of a row of that model whose
    [brand], [id], [status] or [shipping] is text exactly when it
    equals one of the values, and, when that column is a number and the
    values are integer literals, exactly when it equals the integer one
    of the values denotes. *)
Theorem joined_filters_match_any_value (collate : ascii -> ascii -> bool)
  (v : JS.value) (now : Z) (row : Sql.row) (attr : string)
  (f : JS.value -> Eval fragment) (m : models) :
  In (f, attr, m)
     [ (filterMappings.brandId, "brand", styleModel);
       (filterMappings.categoryId, "id", categoriesModel);
       (filterMappings.status, "status", offerModel);
       (filterMappings.shipping, "shipping", offerModel) ] ->
  requested v <> [] ->
  exists c, f v now = Ok c /\ target c = Some m /\
    (forall b, row attr = Some (Text b) ->
       (selects collate (filter c) row = true <->
        exists g, In g (requested v) /\ text_eq collate g b = true))
    /\ (forall p, row attr = Some (Number p) ->
        Forall (fun g => integer_literal g <> None) (requested v) ->
        (selects collate (filter c) row = true <->
         exists g z, In g (requested v) /\ integer_literal g = Some z /\
                     (p == inject_Z z)%Q)).
Proof.
  intros Hin Hne.
  assert (T : forall b, row attr = Some (Text b) ->
              (selects collate (Attr attr (filterMappings.or_of_values v)) row = true <->
               exists g, In g (requested v) /\ text_eq collate g b = true)).
  { intros b Hrow. unfold selects, holds_attr. simpl fst. simpl snd.
    rewrite Hrow, or_of_values_holds by exact Hne. apply existsb_exists. }
  assert (N : forall p, row attr = Some (Number p) ->
              Forall (fun g => integer_literal g <> None) (requested v) ->
              (selects collate (Attr attr (filterMappings.or_of_values v)) row = true <->
               exists g z, In g (requested v) /\ integer_literal g = Some z /\
                           (p == inject_Z z)%Q)).
  { intros p Hrow Hint. unfold selects, holds_attr. simpl fst. simpl snd.
    rewrite Hrow, or_of_values_holds by exact Hne.
    rewrite existsb_exists. rewrite Forall_forall in Hint. split.
    - intros (g & Hg & E). specialize (Hint g Hg).
      unfold equal in E.
      destruct (integer_literal g) as [z|] eqn:Ez; [|congruence].
      exists g, z. split; [exact Hg|]. split; [exact Ez|].
      apply Qeq_bool_iff. exact E.
    - intros (g & z & Hg & Ez & E). exists g. split; [exact Hg|].
      unfold equal. rewrite Ez. apply Qeq_bool_iff. exact E. }
  simpl in Hin.
  repeat (destruct Hin as [Hin|Hin];
          [injection Hin as <- <- <-; eexists; split; [reflexivity|];
           split; [reflexivity | split; [exact T | exact N]] |]).
  contradiction.
Qed.

Lemma joined_filters_match_any_value_witness :
  In (filterMappings.status, "status", offerModel)
     [ (filterMappings.brandId, "brand", styleModel);
       (filterMappings.categoryId, "id", categoriesModel);
       (filterMappings.status, "status", offerModel);
       (filterMappings.shipping, "shipping", offerModel) ] /\
  requested (Arr ["live"; "closed"]) <> [] /\
  (exists c, filterMappings.status (Arr ["live"; "closed"]) 0 = Ok c /\
             target c = Some offerModel /\
             selects binary (filter c)
               (fun a => if String.eqb a "status" then Some (Text "closed")
                         else None) = true) /\
  In (filterMappings.categoryId, "id", categoriesModel)
     [ (filterMappings.brandId, "brand", styleModel);
       (filterMappings.categoryId, "id", categoriesModel);
       (filterMappings.status, "status", offerModel);
       (filterMappings.shipping, "shipping", offerModel) ] /\
  requested (Str "7") <> [] /\
  Forall (fun g => integer_literal g <> None) (requested (Str "7")) /\
  (exists c, filterMappings.categoryId (Str "7") 0 = Ok c /\
             target c = Some categoriesModel /\
             selects binary (filter c)
               (fun a => if String.eqb a "id" then Some (Number (inject_Z 7))
                         else None) = true).
Proof.
  assert (Hs : In (filterMappings.status, "status", offerModel)
     [ (filterMappings.brandId, "brand", styleModel);
       (filterMappings.categoryId, "id", categoriesModel);
       (filterMappings.status, "status", offerModel);
       (filterMappings.shipping, "shipping", offerModel) ])
    by (right; right; left; reflexivity).
  assert (Hc : In (filterMappings.categoryId, "id", categoriesModel)
     [ (filterMappings.brandId, "brand", styleModel);
       (filterMappings.categoryId, "id", categoriesModel);
       (filterMappings.status, "status", offerModel);
       (filterMappings.shipping, "shipping", offerModel) ])
    by (right; left; reflexivity).
  assert (Hne : requested (Arr ["live"; "closed"]) <> []) by discriminate.
  assert (Hn7 : requested (Str "7") <> []) by discriminate.
  assert (Hi7 : Forall (fun g => integer_literal g <> None) (requested (Str "7")))
    by (repeat constructor; discriminate).
  split; [exact Hs|]. split; [exact Hne|]. split.
  - destruct (joined_filters_match_any_value binary (Arr ["live"; "closed"]) 0
                (fun a => if String.eqb a "status" then Some (Text "closed")
                          else None)
                "status" filterMappings.status offerModel Hs Hne)
      as (c & E & T & H & _).
    exists c. split; [exact E|]. split; [exact T|].
    apply (H "closed" eq_refl).
    exists "closed". split; [right; left; reflexivity | reflexivity].
  - split; [exact Hc|]. split; [exact Hn7|]. split; [exact Hi7|].
    destruct (joined_filters_match_any_value binary (Str "7") 0
                (fun a => if String.eqb a "id" then Some (Number (inject_Z 7))
                          else None)
                "id" filterMappings.categoryId categoriesModel Hc Hn7)
      as (c & E & T & _ & H).
    exists c. split; [exact E|]. split; [exact T|].
    apply (H (inject_Z 7) eq_refl Hi7).
    exists "7", 7. split; [left; reflexivity|]. split; reflexivity.
Defined.

(** ** The registry against the options of the query *)

(** X6.  Whatever a filter function returns, its target, when it has
    one, is a model that [getOptionsCallback] joins, and every column
    its predicate names is among the columns loaded for that model;
    the functions other than [brandId], [categoryId], [status] and
    [shipping] have no target. *)
Theorem targets_are_joined (moment_utc : JS.value -> Z -> option Z)
  (key : string) (f : JS.value -> Eval fragment) (v : JS.value) (now : Z)
  (c : fragment) (p : params) :
  filterMappings.get moment_utc key = Some f ->
  f v now = Ok c ->
  match target c with
  | Some m =>
      In key ["brandId"; "categoryId"; "status"; "shipping"] /\
      forallb (fun a => existsb (loads m a) (include (getOptionsCallback p)))
              (clause_attrs (filter c)) = true
  | None => ~ In key ["brandId"; "categoryId"; "status"; "shipping"]
  end.
Proof.
  intros H E. apply get_In in H. each_entry H;
    unfold filterMappings.upcoming in E;
    try destruct (is_zero (parseInt v));
    destruct v;
    cbn -[parseFloat today In] in E;
    try discriminate;
    injection E as <-; cbn -[In];
    first [ split; [simpl; tauto | reflexivity]
          | simpl; intuition discriminate ].
Qed.

Lemma targets_are_joined_witness :
  filterMappings.get (fun _ _ => None) "categoryId" = Some filterMappings.categoryId /\
  filterMappings.categoryId (Str "7") 0 =
    Ok (Fragment (Attr "id" (Val (OStr "7"))) (Some categoriesModel)) /\
  forallb (fun a => existsb (loads categoriesModel a)
                            (include (getOptionsCallback [])))
          ["id"] = true.
Proof.
  split; [reflexivity|]. split; [reflexivity|].
  pose proof (targets_are_joined (fun _ _ => None) "categoryId"
                filterMappings.categoryId (Str "7") 0
                (Fragment (Attr "id" (Val (OStr "7"))) (Some categoriesModel))
                [] eq_refl eq_refl) as H.
  exact (proj2 H).
Defined.

(** ** Which filter functions throw *)

(** X7.  [query] throws a [TypeError] on every array and returns on
    every string; no other function of the registry ever throws. *)
Theorem only_query_throws (moment_utc : JS.value -> Z -> option Z)
  (key : string) (f : JS.value -> Eval fragment) (v : JS.value) (now : Z) :
  filterMappings.get moment_utc key = Some f ->
  match f v now with
  | Ok _ => key <> "query" \/ exists s, v = Str s
  | Throw e => key = "query" /\ e = TypeError /\ exists l, v = Arr l
  end.
Proof.
  intros H. apply get_In in H. each_entry H;
    unfold filterMappings.upcoming;
    try destruct (is_zero (parseInt v));
    destruct v as [s|l];
    cbn -[parseFloat today];
    first [ left; discriminate
          | right; eexists; reflexivity
          | split; [reflexivity | split; [reflexivity | eexists; reflexivity]] ].
Qed.

Lemma only_query_throws_witness :
  filterMappings.get (fun _ _ => None) "query" = Some filterMappings.query /\
  filterMappings.query (Arr ["air"; "max"]) 0 = Throw TypeError.
Proof.
  split; [reflexivity|].
  pose proof (only_query_throws (fun _ _ => None) "query" filterMappings.query
                (Arr ["air"; "max"]) 0 eq_refl) as H.
  destruct (filterMappings.query (Arr ["air"; "max"]) 0) as [c|e].
  - destruct H as [H|(s & H)]; [contradiction H; reflexivity | discriminate].
  - destruct H as (_ & -> & _). reflexivity.
Defined.

(** ** White space around and inside a search *)

Lemma starts_with_space_append (s : string) (c : ascii) :
  s <> "" ->
  starts_with_space (s ++ String c "") = starts_with_space s.
Proof. destruct s; [congruence | reflexivity]. Qed.

(** One more white-space character at the end adds an empty token, or
    nothing when the string ended with white space already. *)
Lemma split_spaces_trailing (s : string) (c : ascii) :
  is_space c = true ->
  split_spaces (s ++ String c "") =
  if ends_with_space s then split_spaces s
  else (split_spaces s ++ [""])%list.
Proof.
  intros Hc. induction s as [|d s IH].
  - simpl. rewrite Hc. reflexivity.
  - assert (E : ends_with_space (String d s) =
                match s with "" => is_space d | _ => ends_with_space s end)
      by (destruct s; reflexivity).
    rewrite E. clear E.
    change (String d s ++ String c "") with (String d (s ++ String c "")).
    cbn [split_spaces]. destruct (is_space d) eqn:Hd.
    + destruct s as [|e s'].
      * simpl. rewrite Hc. reflexivity.
      * rewrite starts_with_space_append by discriminate.
        rewrite IH. remember (String e s') as s.
        destruct (starts_with_space s), (ends_with_space s);
          subst s; reflexivity.
    + rewrite IH.
      pose proof (split_spaces_not_nil s) as Hn.
      destruct s as [|e s'].
      * reflexivity.
      * remember (String e s') as s.
        destruct (ends_with_space s), (split_spaces s) as [|w ws];
          subst s; try congruence; reflexivity.
Qed.

Lemma like_match_empty_token (collate : ascii -> ascii -> bool) (s : string) :
  like_match collate ("%" ++ "" ++ "%") s = true.
Proof.
  change ("%" ++ "" ++ "%") with (String "%" "%").
  destruct s; rewrite like_match_percent, like_match_any; reflexivity.
Qed.

(** X8.  A white-space character before or after the search string
    does not change which releases [query] holds of. *)
Theorem query_ignores_surrounding_space (collate : ascii -> ascii -> bool)
  (c : ascii) (s : string) (now : Z) (r : ReleaseRow.t) :
  is_space c = true ->
  matches collate (filterMappings.query (Str (String c s)) now) r =
    matches collate (filterMappings.query (Str s) now) r
  /\ matches collate (filterMappings.query (Str (s ++ String c "")) now) r =
    matches collate (filterMappings.query (Str s) now) r.
Proof.
  intros Hc. rewrite !query_selects. split.
  - cbn [split_spaces]. rewrite Hc.
    destruct (starts_with_space s); [reflexivity|].
    cbn [forallb]. rewrite !like_match_empty_token. reflexivity.
  - rewrite (split_spaces_trailing s c Hc).
    destruct (ends_with_space s); [reflexivity|].
    rewrite !forallb_app. cbn [forallb].
    rewrite !like_match_empty_token, !andb_true_r. reflexivity.
Qed.

Lemma query_ignores_surrounding_space_witness :
  is_space " " = true /\
  matches case_insensitive (filterMappings.query (Str " air max") 0) air_maximus
  = matches case_insensitive (filterMappings.query (Str "air max") 0) air_maximus.
Proof.
  split; [reflexivity|].
  apply (proj1 (query_ignores_surrounding_space case_insensitive " " "air max"
                  0 air_maximus eq_refl)).
Defined.

Lemma split_spaces_blank (s : string) :
  blank s = true -> Forall (fun w => w = "") (split_spaces s).
Proof.
  induction s as [|c s IH]; intros H.
  - repeat constructor.
  - simpl in H. apply andb_true_iff in H as [Hc Hs].
    cbn [split_spaces]. rewrite Hc. specialize (IH Hs).
    destruct (starts_with_space s); [exact IH|].
    constructor; [reflexivity | exact IH].
Qed.

(** X9.  On a search string that is empty or all white space, [query]
    holds of every release. *)
Theorem query_blank_matches_all (collate : ascii -> ascii -> bool)
  (s : string) (now : Z) (r : ReleaseRow.t) :
  blank s = true ->
  matches collate (filterMappings.query (Str s) now) r = true.
Proof.
  intros H. apply split_spaces_blank in H.
  rewrite query_selects. apply orb_true_iff. left.
  apply forallb_forall. intros w Hw.
  rewrite Forall_forall in H. rewrite (H w Hw).
  apply like_match_empty_token.
Qed.

Lemma query_blank_matches_all_witness :
  blank "  " = true /\
  matches binary (filterMappings.query (Str "  ") 0) air_maximus = true.
Proof.
  split; [reflexivity|].
  apply (query_blank_matches_all binary "  " 0 air_maximus eq_refl).
Defined.

(** * Further facts about the facade *)

(** ** Past releases *)

Lemma before_selects (collate : ascii -> ascii -> bool)
  (date : Z) (r : ReleaseRow.t) :
  ReleaseModel.selected collate
    (Attr "releaseDate" (Cmp lt (ODate (Some date)))) r = dated_before date r.
Proof.
  unfold ReleaseModel.selected, dated_before. cbn.
  destruct (ReleaseRow.releaseDate r); reflexivity.
Qed.

(** X10.  [getPastReleases] never fails and writes nothing: it returns
    the conversions, in table order, of the releases dated strictly
    before the given instant, those without a date left out.  With
    midnight UTC of the current day as the instant, these are the
    releases of which the [outdated] filter holds. *)
Theorem getPastReleases_dated_before (collate : ascii -> ascii -> bool)
  (DomainRelease : Type) (Release : ReleaseRow.t -> DomainRelease)
  (date : Z) (v : JS.value) (now : Z) (d : database) :
  getPastReleases collate Release date now d =
    (Ok (map Release (List.filter (dated_before date) (releases_table d))), d)
  /\ (forall r, dated_before date r = true <->
                exists t, ReleaseRow.releaseDate r = Some t /\ t < date)
  /\ List.filter (dated_before (today now)) (releases_table d) =
     List.filter (matches collate (filterMappings.outdated v now))
                 (releases_table d).
Proof.
  split; [|split].
  - unfold getPastReleases, ReleaseModel.findAll. cbn. do 3 f_equal.
    apply filter_ext. intros r. apply before_selects.
  - intros r. unfold dated_before.
    destruct (ReleaseRow.releaseDate r) as [t|].
    + rewrite Z.ltb_lt. split.
      * intros H. exists t. auto.
      * intros (t' & E & H). injection E as <-. exact H.
    + split; [discriminate | intros (t' & E & _); discriminate].
  - apply filter_ext. intros r. rewrite outdated_selects. reflexivity.
Qed.

(** ** Deleting an image *)

(** X11.  [destroyImage] removes the image rows keyed by the id and no
    other row, returns how many it removed, and leaves the releases
    alone; a second call removes nothing and returns 0. *)
Theorem destroyImage_removes_exactly (id : Z) (now now' : Z) (d : database) :
  let d' := snd (destroyImage id now d) in
  (forall i, In i (images_table d') <->
             In i (images_table d) /\ ImageRow.id i <> id)
  /\ releases_table d' = releases_table d
  /\ (exists n, fst (destroyImage id now d) = Ok n /\
        (n + List.length (images_table d') = List.length (images_table d))%nat)
  /\ destroyImage id now' d' = (Ok 0%nat, d').
Proof.
  unfold destroyImage, ImageModel.destroy. cbn.
  split; [|split; [reflexivity | split]].
  - intros i. rewrite filter_In, negb_true_iff, Z.eqb_neq. reflexivity.
  - eexists. split; [reflexivity|].
    induction (images_table d) as [|i l IH]; [reflexivity|].
    simpl. destruct (ImageRow.id i =? id); simpl; lia.
  - assert (Gone : forall l,
      List.filter (fun i => ImageRow.id i =? id)
        (List.filter (fun i => negb (ImageRow.id i =? id)) l) = []).
    { induction l as [|i l IH]; [reflexivity|].
      simpl. destruct (ImageRow.id i =? id) eqn:E; simpl; [exact IH|].
      rewrite E. exact IH. }
    assert (Kept : forall l,
      List.filter (fun i => negb (ImageRow.id i =? id))
        (List.filter (fun i => negb (ImageRow.id i =? id)) l) =
      List.filter (fun i => negb (ImageRow.id i =? id)) l).
    { induction l as [|i l IH]; [reflexivity|].
      simpl. destruct (ImageRow.id i =? id) eqn:E; simpl; [exact IH|].
      rewrite E. simpl. f_equal. exact IH. }
    rewrite Gone, Kept. reflexivity.
Qed.

(** ** Writing [updatedAt] and [hiddenDashboard] *)

Lemma setHiddenDashboard_rows (collate : ascii -> ascii -> bool)
  (timestamps : bool) (rid : Z) (flag : bool) (now : Z) (d : database) :
  snd (setHiddenDashboard collate timestamps rid flag now d) =
  {| releases_table :=
       map (fun r => if ReleaseRow.id r =? rid
                     then (if timestamps
                           then ReleaseModel.set_updatedAt now
                                  (ReleaseModel.set_hiddenDashboard flag r)
                           else ReleaseModel.set_hiddenDashboard flag r)
                     else r)
           (releases_table d);
     images_table := images_table d;
     next_image_id := next_image_id d |}.
Proof.
  unfold setHiddenDashboard, ReleaseModel.update. cbn [snd]. f_equal.
  apply map_ext. intros r. rewrite selected_where_id. reflexivity.
Qed.

(** X12.  [modifyUpdatedAt] called after [setHiddenDashboard] on the
    same id leaves the release with the given flag and the given
    [updatedAt], whether or not the model keeps timestamps and whenever
    the first call was made; its other columns, the other releases and
    the images are as before. *)
Theorem modifyUpdatedAt_overrides_timestamp (collate : ascii -> ascii -> bool)
  (timestamps : bool) (rid t : Z) (flag : bool) (now1 now2 : Z) (d : database) :
  modifyUpdatedAt rid t now2
    (snd (setHiddenDashboard collate timestamps rid flag now1 d)) =
  (Ok tt,
   {| releases_table :=
        map (fun r =>
               ReleaseRow.make
                 (ReleaseRow.id r) (ReleaseRow.slug r) (ReleaseRow.name r)
                 (ReleaseRow.sku r) (ReleaseRow.gender r) (ReleaseRow.color r)
                 (ReleaseRow.releaseDate r) (ReleaseRow.priceEUR r)
                 (ReleaseRow.priceGBP r) (ReleaseRow.priceUSD r)
                 (if ReleaseRow.id r =? rid then flag
                  else ReleaseRow.hiddenDashboard r)
                 (if ReleaseRow.id r =? rid then t
                  else ReleaseRow.updatedAt r))
            (releases_table d);
      images_table := images_table d;
      next_image_id := next_image_id d |}).
Proof.
  rewrite setHiddenDashboard_rows.
  unfold modifyUpdatedAt, ReleaseModel.raw_update_updatedAt. cbn.
  do 2 f_equal. rewrite map_map. apply map_ext. intros r.
  destruct (Z.eqb_spec (ReleaseRow.id r) rid) as [E|N].
  - destruct timestamps, r; simpl in *; subst;
      rewrite Z.eqb_refl; reflexivity.
  - apply Z.eqb_neq in N. rewrite N. destruct r; reflexivity.
Qed.

(** X13.  When no release has the id, [setHiddenDashboard] writes
    nothing and resolves to the array [[0]]; and of two calls on one id
    the later decides: the database is the one the later call alone
    leaves, in which the releases with that id carry the later flag. *)
Theorem setHiddenDashboard_absent_and_last_wins
  (collate : ascii -> ascii -> bool) (timestamps : bool)
  (rid : Z) (flag1 flag2 : bool) (now1 now2 : Z) (d : database) :
  ((forall r, In r (releases_table d) -> ReleaseRow.id r <> rid) ->
   setHiddenDashboard collate timestamps rid flag1 now1 d = (Ok [0%nat], d))
  /\ snd (setHiddenDashboard collate timestamps rid flag2 now2
            (snd (setHiddenDashboard collate timestamps rid flag1 now1 d))) =
     snd (setHiddenDashboard collate timestamps rid flag2 now2 d)
  /\ Forall (fun r => ReleaseRow.id r = rid ->
                      ReleaseRow.hiddenDashboard r = flag2)
       (releases_table
          (snd (setHiddenDashboard collate timestamps rid flag2 now2
                  (snd (setHiddenDashboard collate timestamps rid flag1 now1 d))))).
Proof.
  assert (Last :
    snd (setHiddenDashboard collate timestamps rid flag2 now2
           (snd (setHiddenDashboard collate timestamps rid flag1 now1 d))) =
    snd (setHiddenDashboard collate timestamps rid flag2 now2 d)).
  { rewrite !setHiddenDashboard_rows. cbn. f_equal.
    rewrite map_map. apply map_ext. intros r.
    destruct (Z.eqb_spec (ReleaseRow.id r) rid) as [E|N].
    + destruct timestamps, r; simpl in *; subst;
        rewrite Z.eqb_refl; reflexivity.
    + apply Z.eqb_neq in N. rewrite N. reflexivity. }
  split; [|split; [exact Last|]].
  - intros H. unfold setHiddenDashboard, ReleaseModel.update.
    assert (S0 : forall r, In r (releases_table d) ->
                 ReleaseModel.selected collate (where_id rid) r = false).
    { intros r Hr. rewrite selected_where_id. apply Z.eqb_neq. auto. }
    replace (List.filter (ReleaseModel.selected collate (where_id rid))
                         (releases_table d)) with (@nil ReleaseRow.t).
    + replace (map _ (releases_table d)) with (releases_table d).
      * destruct d; reflexivity.
      * rewrite <- (map_id (releases_table d)) at 1.
        apply map_ext_in. intros r Hr. rewrite (S0 r Hr). reflexivity.
    + symmetry. clear H.
      induction (releases_table d) as [|r l IH] in S0 |- *; [reflexivity|].
      cbn [List.filter]. rewrite (S0 r) by (left; reflexivity).
      apply IH. intros r' Hr'. apply S0. right. exact Hr'.
  - rewrite Last, setHiddenDashboard_rows. cbn [releases_table].
    apply Forall_forall. intros r' Hr'.
    apply in_map_iff in Hr' as (r & <- & _).
    destruct (Z.eqb_spec (ReleaseRow.id r) rid) as [E|N].
    + intros _. destruct timestamps, r; reflexivity.
    + intros E. contradiction.
Qed.

Lemma setHiddenDashboard_absent_and_last_wins_witness :
  (forall r, In r (releases_table store) -> ReleaseRow.id r <> 7) /\
  setHiddenDashboard binary true 7 true 9 store = (Ok [0%nat], store).
Proof.
  assert (H7 : forall r, In r (releases_table store) -> ReleaseRow.id r <> 7).
  { intros r [<-|[<-|[<-|[]]]]; discriminate. }
  split; [exact H7|].
  apply (proj1 (setHiddenDashboard_absent_and_last_wins binary true 7
                  true true 9 9 store)).
  exact H7.
Defined.

(** ** Creating images, then reading them *)

Lemma createImages_found (collate : ascii -> ascii -> bool)
  (rid : Z) (images : list string) (now : Z) (d : database) :
  (exists r, In r (releases_table d) /\ ReleaseRow.id r = rid) ->
  let created := ImageModel.build (next_image_id d) images in
  createImages collate rid images now d =
    (Ok created,
     {| releases_table := releases_table d;
        images_table :=
          map (fun i => if ImageModel.has_id (map ImageRow.id created) i
                        then ImageModel.set_releaseId rid i else i)
              (images_table d ++ created)%list;
        next_image_id := next_image_id d + Z.of_nat (List.length images) |}).
Proof.
  intros H created.
  destruct (find_where_id_some collate rid _ H) as (release & E & Hid).
  unfold createImages, ReleaseModel.findOne. cbn. rewrite E. cbn.
  rewrite Hid. reflexivity.
Qed.

Lemma createImages_missing (collate : ascii -> ascii -> bool)
  (rid : Z) (images : list string) (now : Z) (d : database) :
  (forall r, In r (releases_table d) -> ReleaseRow.id r <> rid) ->
  createImages collate rid images now d = (Throw EntityNotFound, d).
Proof.
  intros H. unfold createImages, ReleaseModel.findOne. cbn.
  rewrite (find_where_id_none collate rid _ H). reflexivity.
Qed.

Lemma getAllImages_found (collate : ascii -> ascii -> bool)
  (DomainImage : Type) (ReleaseImage : ImageRow.t -> DomainImage)
  (rid : Z) (now : Z) (d : database) :
  (exists r, In r (releases_table d) /\ ReleaseRow.id r = rid) ->
  getAllImages collate ReleaseImage rid now d =
    (Ok (map ReleaseImage
           (List.filter (ImageModel.owned_by rid) (images_table d))), d).
Proof.
  intros H.
  destruct (find_where_id_some collate rid _ H) as (release & E & Hid).
  unfold getAllImages, ReleaseModel.findOne. cbn. rewrite E. cbn.
  rewrite Hid. reflexivity.
Qed.

Lemma filter_owned_associated (rid : Z) (l : list ImageRow.t) :
  List.filter (ImageModel.owned_by rid) (map (ImageModel.set_releaseId rid) l) =
  map (ImageModel.set_releaseId rid) l.
Proof.
  induction l as [|i l IH]; [reflexivity|].
  simpl. unfold ImageModel.owned_by at 1. simpl.
  rewrite Z.eqb_refl, IH. reflexivity.
Qed.

(** X14.  After [createImages] resolves for a release, [getAllImages]
    for that release returns the images it returned before, followed
    by the created ones, each now pointing at the release and holding
    the record it was given. *)
Theorem createImages_then_getAllImages (collate : ascii -> ascii -> bool)
  (DomainImage : Type) (ReleaseImage : ImageRow.t -> DomainImage)
  (rid : Z) (images : list string) (now now' : Z) (d : database) :
  (exists r, In r (releases_table d) /\ ReleaseRow.id r = rid) ->
  keys_fresh d ->
  exists created before d',
    createImages collate rid images now d = (Ok created, d')
    /\ getAllImages collate ReleaseImage rid now d = (Ok before, d)
    /\ getAllImages collate ReleaseImage rid now' d' =
         (Ok (before ++
              map (fun i => ReleaseImage (ImageModel.set_releaseId rid i))
                  created)%list, d')
    /\ map ImageRow.image created = images.
Proof.
  intros H Hf.
  pose proof (createImages_found collate rid images now d H) as Hc.
  cbv zeta in Hc. rewrite (associate_created rid d images Hf) in Hc.
  eexists. eexists. eexists.
  split; [exact Hc|]. split; [apply getAllImages_found; exact H|]. split.
  - rewrite getAllImages_found by exact H. cbn [images_table].
    rewrite filter_app, filter_owned_associated, map_app, map_map.
    reflexivity.
  - apply build_images.
Qed.

Lemma createImages_then_getAllImages_witness :
  (exists r, In r (releases_table store) /\ ReleaseRow.id r = 1) /\
  keys_fresh store /\
  fst (getAllImages binary ImageRow.image 1 5
         (snd (createImages binary 1 ["x.png"] 0 store))) =
    Ok ["a.png"; "x.png"].
Proof.
  assert (H1 : exists r, In r (releases_table store) /\ ReleaseRow.id r = 1).
  { exists (sample_release 1 "AJ1-red"). split; [left|]; reflexivity. }
  assert (Hf : keys_fresh store).
  { unfold keys_fresh. simpl. repeat constructor. }
  split; [exact H1|]. split; [exact Hf|].
  destruct (createImages_then_getAllImages binary string ImageRow.image 1 ["x.png"]
              0 5 store H1 Hf) as (created & before & d' & Ec & Eb & Ea & _).
  rewrite Ec. cbn [snd]. rewrite Ea. cbn [fst].
  vm_compute in Ec. injection Ec as <- _.
  vm_compute in Eb. injection Eb as <-.
  reflexivity.
Defined.

Lemma release_present_or_absent (rid : Z) (l : list ReleaseRow.t) :
  (exists r, In r l /\ ReleaseRow.id r = rid) \/
  (forall r, In r l -> ReleaseRow.id r <> rid).
Proof.
  induction l as [|r l [(x & Hx & E)|IH]].
  - right. intros r [].
  - left. exists x. split; [right|]; assumption.
  - destruct (Z.eq_dec (ReleaseRow.id r) rid) as [E|N].
    + left. exists r. split; [left; reflexivity | exact E].
    + right. intros x [<-|Hx]; [exact N | apply IH; exact Hx].
Qed.

Lemma filter_owned_elsewhere (rid other : Z) (l : list ImageRow.t) :
  other <> rid ->
  List.filter (ImageModel.owned_by other) (map (ImageModel.set_releaseId rid) l)
  = [].
Proof.
  intros Hne. induction l as [|i l IH]; [reflexivity|].
  simpl. unfold ImageModel.owned_by at 1. simpl.
  destruct (Z.eqb_spec rid other) as [E|_]; [congruence | exact IH].
Qed.

Lemma getAllImages_missing (collate : ascii -> ascii -> bool)
  (DomainImage : Type) (ReleaseImage : ImageRow.t -> DomainImage)
  (rid : Z) (now : Z) (d : database) :
  (forall r, In r (releases_table d) -> ReleaseRow.id r <> rid) ->
  getAllImages collate ReleaseImage rid now d = (Throw EntityNotFound, d).
Proof.
  intros H. unfold getAllImages, ReleaseModel.findOne. cbn.
  rewrite (find_where_id_none collate rid _ H). reflexivity.
Qed.

(** X15.  [createImages] for one release changes nothing of what
    [getAllImages] returns for a release with another id. *)
Theorem createImages_keeps_other_images (collate : ascii -> ascii -> bool)
  (DomainImage : Type) (ReleaseImage : ImageRow.t -> DomainImage)
  (rid other : Z) (images : list string) (now now' : Z) (d : database) :
  other <> rid ->
  keys_fresh d ->
  fst (getAllImages collate ReleaseImage other now'
         (snd (createImages collate rid images now d))) =
  fst (getAllImages collate ReleaseImage other now' d).
Proof.
  intros Hne Hf.
  destruct (release_present_or_absent rid (releases_table d)) as [Hr|Hr].
  - pose proof (createImages_found collate rid images now d Hr) as Hc.
    cbv zeta in Hc. rewrite (associate_created rid d images Hf) in Hc.
    rewrite Hc. cbn [snd].
    destruct (release_present_or_absent other (releases_table d)) as [Ho|Ho].
    + rewrite !getAllImages_found by exact Ho. cbn [fst images_table].
      rewrite filter_app, (filter_owned_elsewhere rid other _ Hne), app_nil_r.
      reflexivity.
    + rewrite !getAllImages_missing by exact Ho. reflexivity.
  - rewrite (createImages_missing collate rid images now d Hr). reflexivity.
Qed.

Lemma createImages_keeps_other_images_witness :
  2 <> 1 /\ keys_fresh store /\
  fst (getAllImages binary ImageRow.image 2 5
         (snd (createImages binary 1 ["x.png"] 0 store))) = Ok [].
Proof.
  assert (Hf : keys_fresh store).
  { unfold keys_fresh. simpl. repeat constructor. }
  split; [discriminate|]. split; [exact Hf|].
  rewrite (createImages_keeps_other_images binary string ImageRow.image 1 2
             ["x.png"] 0 5 store ltac:(discriminate) Hf).
  reflexivity.
Defined.

(** X16.  With no image to create, [createImages] for an existing
    release returns the empty list and leaves the database as it
    was. *)
Theorem createImages_nothing (collate : ascii -> ascii -> bool)
  (rid : Z) (now : Z) (d : database) :
  (exists r, In r (releases_table d) /\ ReleaseRow.id r = rid) ->
  createImages collate rid [] now d = (Ok [], d).
Proof.
  intros H. rewrite (createImages_found collate rid [] now d H).
  cbn. f_equal. rewrite app_nil_r, Z.add_0_r.
  replace (map _ (images_table d)) with (images_table d);
    [destruct d; reflexivity|].
  rewrite <- (map_id (images_table d)) at 1.
  apply map_ext. reflexivity.
Qed.

Lemma createImages_nothing_witness :
  (exists r, In r (releases_table store) /\ ReleaseRow.id r = 3) /\
  createImages binary 3 [] 0 store = (Ok [], store).
Proof.
  assert (H : exists r, In r (releases_table store) /\ ReleaseRow.id r = 3).
  { exists (sample_release 3 "AJ4-red").
    split; [right; right; left|]; reflexivity. }
  split; [exact H|].
  apply (createImages_nothing binary 3 0 store H).
Defined.

(** ** What every call keeps *)

Lemma build_keys_below (next : Z) (images : list string) (i : ImageRow.t) :
  In i (ImageModel.build next images) ->
  ImageRow.id i < next + Z.of_nat (List.length images).
Proof.
  revert next. induction images as [|x l IH]; intros next; simpl List.length.
  - intros [].
  - intros [<-|H]; simpl ImageRow.id; [lia|]. apply IH in H. lia.
Qed.

Lemma build_keys_NoDup (next : Z) (images : list string) :
  NoDup (map ImageRow.id (ImageModel.build next images)).
Proof.
  revert next. induction images as [|x l IH]; intros next; simpl.
  - constructor.
  - constructor; [|apply IH].
    intros H. apply in_map_iff in H as (i & E & Hi).
    apply build_keys in Hi. lia.
Qed.

Lemma map_id_associated (rid : Z) (l : list ImageRow.t) :
  map ImageRow.id (map (ImageModel.set_releaseId rid) l) = map ImageRow.id l.
Proof. rewrite map_map. apply map_ext. reflexivity. Qed.

Lemma NoDup_map_filter {A B} (f : A -> B) (p : A -> bool) (l : list A) :
  NoDup (map f l) -> NoDup (map f (List.filter p l)).
Proof.
  induction l as [|a l IH]; simpl; intros H; [constructor|].
  inversion H as [|? ? Hn Hl]; subst.
  destruct (p a); simpl; [|apply IH; exact Hl].
  constructor; [|apply IH; exact Hl].
  intros Hin. apply Hn. apply in_map_iff in Hin as (x & E & Hx).
  apply filter_In in Hx as [Hx _]. apply in_map_iff. exists x. auto.
Qed.

Section Invariants.

Variable collate : ascii -> ascii -> bool.
Variable timestamps : bool.
Variables DomainRelease DomainImage : Type.
Variable Release : ReleaseRow.t -> DomainRelease.
Variable ReleaseImage : ImageRow.t -> DomainImage.

Lemma getAllImages_writes_nothing (rid now : Z) (d : database) :
  snd (getAllImages collate ReleaseImage rid now d) = d.
Proof.
  destruct (release_present_or_absent rid (releases_table d)) as [H|H].
  - rewrite getAllImages_found by exact H. reflexivity.
  - rewrite getAllImages_missing by exact H. reflexivity.
Qed.

Lemma reads_write_nothing (op : operation) (now : Z) (d : database) :
  reads_only op = true -> after collate timestamps Release ReleaseImage op now d = d.
Proof.
  destruct op; try discriminate; intros _; unfold after.
  - apply getAllImages_writes_nothing.
  - reflexivity.
  - reflexivity.
Qed.

Lemma createImages_after (rid : Z) (images : list string) (now : Z)
  (d : database) :
  keys_fresh d ->
  snd (createImages collate rid images now d) = d \/
  snd (createImages collate rid images now d) =
    {| releases_table := releases_table d;
       images_table :=
         (images_table d ++
          map (ImageModel.set_releaseId rid)
              (ImageModel.build (next_image_id d) images))%list;
       next_image_id := next_image_id d + Z.of_nat (List.length images) |}.
Proof.
  intros Hf.
  destruct (release_present_or_absent rid (releases_table d)) as [H|H].
  - right. pose proof (createImages_found collate rid images now d H) as Hc.
    cbv zeta in Hc. rewrite (associate_created rid d images Hf) in Hc.
    rewrite Hc. reflexivity.
  - left. rewrite createImages_missing by exact H. reflexivity.
Qed.

Lemma createImages_releases (rid : Z) (images : list string) (now : Z)
  (d : database) :
  releases_table (snd (createImages collate rid images now d)) =
  releases_table d.
Proof.
  destruct (release_present_or_absent rid (releases_table d)) as [H|H].
  - rewrite (createImages_found collate rid images now d H). reflexivity.
  - rewrite createImages_missing by exact H. reflexivity.
Qed.

Lemma after_keeps_keys (op : operation) (now : Z) (d : database) :
  keys_fresh d /\ keys_unique d ->
  keys_fresh (after collate timestamps Release ReleaseImage op now d) /\ keys_unique (after collate timestamps Release ReleaseImage op now d).
Proof.
  intros [Hf Hu]. destruct op as [rid images|iid|rid|date|rid b|slug|rid t];
    unfold after.
  - destruct (createImages_after rid images now d Hf) as [-> | ->];
      [split; assumption|].
    unfold keys_fresh, keys_unique in *. cbn [images_table next_image_id].
    split.
    + apply Forall_app. split.
      * eapply Forall_impl; [|exact Hf]. cbn beta. intros i Hi. lia.
      * apply Forall_forall. intros i Hi.
        apply in_map_iff in Hi as (j & <- & Hj).
        apply build_keys_below in Hj. exact Hj.
    + rewrite map_app, map_id_associated.
      apply NoDup_app; repeat split.
      * exact Hu.
      * apply build_keys_NoDup.
      * intros k Hk Hk'.
        apply in_map_iff in Hk as (i & <- & Hi).
        apply in_map_iff in Hk' as (j & E & Hj).
        apply build_keys in Hj.
        rewrite Forall_forall in Hf. specialize (Hf i Hi). lia.
  - unfold destroyImage, ImageModel.destroy, keys_fresh, keys_unique in *.
    cbn. split.
    + apply Forall_forall. intros i Hi. apply filter_In in Hi as [Hi _].
      rewrite Forall_forall in Hf. auto.
    + apply NoDup_map_filter. exact Hu.
  - rewrite getAllImages_writes_nothing. split; assumption.
  - split; assumption.
  - rewrite setHiddenDashboard_rows. split; assumption.
  - split; assumption.
  - split; assumption.
Qed.

Lemma after_keeps_releases (op : operation) (now : Z) (d : database) :
  map fixed_columns (releases_table (after collate timestamps Release ReleaseImage op now d)) =
  map fixed_columns (releases_table d).
Proof.
  destruct op as [rid images|iid|rid|date|rid b|slug|rid t]; unfold after.
  - rewrite createImages_releases. reflexivity.
  - reflexivity.
  - rewrite getAllImages_writes_nothing. reflexivity.
  - reflexivity.
  - rewrite setHiddenDashboard_rows. cbn [releases_table].
    rewrite map_map. apply map_ext. intros r.
    destruct (ReleaseRow.id r =? rid), timestamps, r; reflexivity.
  - reflexivity.
  - unfold modifyUpdatedAt, ReleaseModel.raw_update_updatedAt.
    cbn [snd releases_table]. rewrite map_map. apply map_ext. intros r.
    destruct (ReleaseRow.id r =? rid), r; reflexivity.
Qed.

(** X17.  Every sequence of calls of the facade keeps the image keys in
    order: from a database whose image rows are keyed apart from each
    other and below the next key handed out, it leads to such a
    database. *)
Theorem facade_keeps_image_keys (calls : list (operation * Z)) (d : database) :
  keys_fresh d -> keys_unique d ->
  keys_fresh (after_all collate timestamps Release ReleaseImage calls d) /\
  keys_unique (after_all collate timestamps Release ReleaseImage calls d).
Proof.
  intros Hf Hu. assert (H : keys_fresh d /\ keys_unique d) by (split; assumption).
  clear Hf Hu. revert d H.
  induction calls as [|[op now] rest IH]; intros d H; [exact H|].
  cbn [after_all]. apply IH. apply after_keeps_keys. exact H.
Qed.

(** X18.  No sequence of calls of the facade creates, deletes or
    reorders a release, or writes any of its columns other than
    [hiddenDashboard] and [updatedAt]. *)
Theorem facade_keeps_releases (calls : list (operation * Z)) (d : database) :
  map fixed_columns
      (releases_table (after_all collate timestamps Release ReleaseImage calls d))
  = map fixed_columns (releases_table d).
Proof.
  revert d. induction calls as [|[op now] rest IH]; intros d; [reflexivity|].
  cbn [after_all]. rewrite IH. apply after_keeps_releases.
Qed.

(** X19.  [getAllImages], [getPastReleases] and [countLikeReleases]
    write nothing, [getAllImages] not even when it rejects: a sequence
    of such calls leaves the database as it was. *)
Theorem reads_leave_database (calls : list (operation * Z)) (d : database) :
  Forall (fun call => reads_only (fst call) = true) calls ->
  after_all collate timestamps Release ReleaseImage calls d = d.
Proof.
  induction 1 as [|[op now] rest Hop _ IH]; [reflexivity|].
  cbn [after_all]. rewrite (reads_write_nothing op now d Hop). exact IH.
Qed.

End Invariants.

Lemma facade_keeps_image_keys_witness :
  keys_fresh store /\ keys_unique store /\
  keys_fresh
    (after_all binary true (fun r => r) ImageRow.image
       [(CreateImages 1 ["x.png"], 0); (DestroyImage 1, 1);
        (SetHiddenDashboard 2 true, 2)] store) /\
  keys_unique
    (after_all binary true (fun r => r) ImageRow.image
       [(CreateImages 1 ["x.png"], 0); (DestroyImage 1, 1);
        (SetHiddenDashboard 2 true, 2)] store).
Proof.
  assert (Hf : keys_fresh store).
  { unfold keys_fresh. simpl. repeat constructor. }
  assert (Hu : keys_unique store).
  { unfold keys_unique. simpl. repeat constructor; simpl; intuition lia. }
  split; [exact Hf|]. split; [exact Hu|].
  apply (facade_keeps_image_keys binary true ReleaseRow.t string
           (fun r => r) ImageRow.image _ store Hf Hu).
Defined.

Lemma reads_leave_database_witness :
  Forall (fun call : operation * Z => reads_only (fst call) = true)
         [(GetAllImages 7, 0); (CountLikeReleases "AJ", 1)] /\
  after_all binary true (fun r => r) ImageRow.image
    [(GetAllImages 7, 0); (CountLikeReleases "AJ", 1)] store = store.
Proof.
  assert (H : Forall (fun call : operation * Z => reads_only (fst call) = true)
                     [(GetAllImages 7, 0); (CountLikeReleases "AJ", 1)])
    by (repeat constructor).
  split; [exact H|].
  apply (reads_leave_database binary true ReleaseRow.t string
           (fun r => r) ImageRow.image _ store H).
Defined.

(** ** Counting by a longer or an empty prefix *)

Lemma wildcard_free_app (p q : string) :
  wildcard_free (p ++ q) = true -> wildcard_free p = true.
Proof.
  induction p as [|c p IH]; simpl; [reflexivity|].
  intros H. apply andb_true_iff in H as [H Hq].
  rewrite H. apply IH. exact Hq.
Qed.

Lemma starts_with_app (collate : ascii -> ascii -> bool) (p q s : string) :
  starts_with collate (p ++ q) s = true -> starts_with collate p s = true.
Proof.
  revert s. induction p as [|c p IH]; intros s; simpl; [reflexivity|].
  destruct s as [|d s]; [discriminate|].
  rewrite !andb_true_iff. intros [Hc H]. split; [exact Hc | apply IH; exact H].
Qed.

Lemma filter_length_le {A} (f g : A -> bool) (l : list A) :
  (forall a, f a = true -> g a = true) ->
  (List.length (List.filter f l) <= List.length (List.filter g l))%nat.
Proof.
  intros H. induction l as [|a l IH]; simpl; [lia|].
  destruct (f a) eqn:Ef.
  - rewrite (H a Ef). simpl. lia.
  - destruct (g a); simpl; lia.
Qed.

Lemma countLikeReleases_prefix (collate : ascii -> ascii -> bool)
  (slug : string) (now : Z) (d : database) :
  wildcard_free slug = true ->
  countLikeReleases collate slug now d =
    (Ok (List.length
           (List.filter (fun r => starts_with collate slug (ReleaseRow.slug r))
                        (releases_table d))), d).
Proof.
  intros Hs. unfold countLikeReleases, ReleaseModel.findAll. cbn.
  do 3 f_equal. apply filter_ext. intros r.
  rewrite like_slug_selects. apply like_prefix. exact Hs.
Qed.

(** X20.  Lengthening a prefix that holds no [LIKE] wildcard never
    raises the count of [countLikeReleases], and the empty prefix
    counts every release. *)
Theorem countLikeReleases_narrows (collate : ascii -> ascii -> bool)
  (p q : string) (now : Z) (d : database) :
  wildcard_free (p ++ q) = true ->
  (exists n m,
     countLikeReleases collate (p ++ q) now d = (Ok n, d) /\
     countLikeReleases collate p now d = (Ok m, d) /\
     (n <= m)%nat)
  /\ countLikeReleases collate "" now d =
     (Ok (List.length (releases_table d)), d).
Proof.
  intros H. pose proof (wildcard_free_app p q H) as Hp. split.
  - eexists. eexists.
    split; [apply countLikeReleases_prefix; exact H|].
    split; [apply countLikeReleases_prefix; exact Hp|].
    apply filter_length_le. intros r. apply starts_with_app.
  - rewrite countLikeReleases_prefix by reflexivity. do 2 f_equal.
    induction (releases_table d) as [|r l IH]; [reflexivity|].
    simpl. f_equal. exact IH.
Qed.

Lemma countLikeReleases_narrows_witness :
  wildcard_free ("AJ" ++ "1") = true /\
  countLikeReleases binary "AJ1" 0 store = (Ok 2%nat, store) /\
  countLikeReleases binary "AJ" 0 store = (Ok 3%nat, store).
Proof.
  split; [reflexivity|].
  destruct (proj1 (countLikeReleases_narrows binary "AJ" "1" 0 store eq_refl))
    as (n & m & En & Em & _).
  split.
  - change ("AJ" ++ "1") with "AJ1" in En. rewrite En. f_equal. f_equal.
    vm_compute in En. injection En as <-. reflexivity.
  - rewrite Em. f_equal. f_equal.
    vm_compute in Em. injection Em as <-. reflexivity.
Defined.
